(** * Goal scroller overlay (bunathon2025): state machine and slot projector

    Shallow embedding of [overlay/everylunaever/bunathon2025/goal_scroller/scripts.mjs]:
    [calculateDoneIndex], [initializeAnimation], [updateScrollerAnimation],
    [determineGoalInfo], and the key check of [createStateLoader] / [main].

    Conventions.
    - Point values are JavaScript numbers.  The overlay only ever compares
      them with [<=], so the development is parametric in the number type:
      class [JSNumber] asks for a boolean [<=] that is transitive, which holds
      for IEEE doubles (NaN included, every comparison with it being false).
      [Z] is the instance used in the examples.
    - Indices ([doneIndex], [index], [position], [picker]) are integers and
      are modelled by [Z]; [null] and [undefined] by [None].
    - The model object is mutated in place by the source; here it is passed
      explicitly, together with the counter that names the next timer
      handle, in a [Page] record. *)

From Stdlib Require Import ZArith List String Bool Lia.
Import ListNotations.
Open Scope Z_scope.

(** ** JavaScript values *)

Class JSNumber (num : Type) := {
  lte : num -> num -> bool;
  lte_trans : forall a b c, lte a b = true -> lte b c = true -> lte a c = true
}.

#[export] Instance Z_JSNumber : JSNumber Z := {|
  lte := Z.leb;
  lte_trans := fun a b c Hab Hbc =>
    proj2 (Z.leb_le a c)
          (Z.le_trans a b c (proj1 (Z.leb_le a b) Hab) (proj1 (Z.leb_le b c) Hbc))
|}.

(** [a ?? b]: the nullish coalescing operator. *)
Definition nullish {A : Type} (a : option A) (b : A) : A :=
  match a with
  | Some v => v
  | None => b
  end.

Notation "a ?? b" := (nullish a b) (at level 38, left associativity).

(** Truthiness of a [number | null | undefined] holding an integer. *)
Definition truthy (v : option Z) : bool :=
  match v with
  | Some n => negb (n =? 0)
  | None => false
  end.

(** [Array.prototype.findLastIndex]: [k] runs from [len - 1] down to [0];
    the argument [k1] of the loop is [k + 1]. *)
Fixpoint findLastIndex_loop {A : Type} (predicate : A -> bool) (arr : list A) (k1 : nat) : Z :=
  match k1 with
  | O => -1
  | S k =>
      match nth_error arr k with
      | Some kValue =>
          if predicate kValue then Z.of_nat k
          else findLastIndex_loop predicate arr k
      | None => findLastIndex_loop predicate arr k
      end
  end.

Definition findLastIndex {A : Type} (predicate : A -> bool) (arr : list A) : Z :=
  findLastIndex_loop predicate arr (List.length arr).

(** [a === b] on [number | null] values that hold integers. *)
Definition option_Z_eqb (a b : option Z) : bool :=
  match a, b with
  | Some x, Some y => x =? y
  | None, None => true
  | _, _ => false
  end.

(** [array[i]], [undefined] outside the array. *)
Definition array_get {A : Type} (array : list A) (i : Z) : option A :=
  if i <? 0 then None else nth_error array (Z.to_nat i).

(** ** Configuration and model types (index.d.ts, config.json) *)

Section Types.

Context {num : Type}.

Record GoalConfig := {
  points : num;
  text : string;
  subtext : option string
}.

Record EncryptedText := {
  iv : string;
  data : string
}.

Record Config := {
  goals : list GoalConfig;
  encryptedBucketUrl : EncryptedText
}.

(** The [element] field of a goal is a DOM node and is left out. *)
Record Goal := {
  config : GoalConfig
}.

Inductive GoalState := active | completed | upcoming.

Inductive GoalAnimation := up | down | clear | no_box_shadow.

Inductive ScrollerAnimationType :=
| static
| upwards_begin
| upwards_moving
| upwards_end
| downwards_begin
| downwards_moving
| downwards_end.

Record ScrollerAnimation := {
  type : ScrollerAnimationType;
  doneIndex : option Z;
  activeTimeout : option Z
}.

Record UIModel := {
  totalPoints : option num;
  model_goals : list Goal;
  animation : ScrollerAnimation
}.

(** The page: the [ui] closure's [model] and the handle the next
    [setTimeout] call returns (handles are integers greater than zero). *)
Record Page := {
  model : UIModel;
  nextTimeout : positive
}.

Record GoalInfo := {
  state : GoalState;
  position : Z;
  info_animation : option GoalAnimation
}.

End Types.

Arguments GoalConfig : clear implicits.
Arguments Config : clear implicits.
Arguments Goal : clear implicits.
Arguments UIModel : clear implicits.
Arguments Page : clear implicits.

(** ** The overlay's functions *)

Section Overlay.

Context {num : Type} `{JSNumber num}.

(** The [config] the page fetched at start-up. *)
Variable config : Config num.

Definition loadGoalsFromConfig : list (Goal num) :=
  map (fun goalConfig => Build_Goal goalConfig) (goals config).

Definition calculateDoneIndex (pts : num) : option Z :=
  let index := findLastIndex (fun x => lte (points x) pts) (goals config) in
  if index <? 0 then None else Some index.

Definition initializeAnimation (initialPoints : num) : ScrollerAnimation :=
  {| type := static;
     doneIndex := calculateDoneIndex initialPoints;
     activeTimeout := None |}.

(** *** The [ui] closure *)

Definition setTotalPoints (totalPoints : option num) (p : Page num) : Page num :=
  {| model := {| totalPoints := totalPoints;
                 model_goals := model_goals (model p);
                 animation := animation (model p) |};
     nextTimeout := nextTimeout p |}.

(** [setAnimation]: [model.animation = animation = updated]. *)
Definition setAnimation (updated : ScrollerAnimation) (p : Page num) : Page num :=
  {| model := {| totalPoints := totalPoints (model p);
                 model_goals := model_goals (model p);
                 animation := updated |};
     nextTimeout := nextTimeout p |}.

Definition startAnimation (currentDoneIndex targetDoneIndex : option Z)
    (p : Page num) : Page num :=
  if (currentDoneIndex ?? -1) >? (targetDoneIndex ?? -1) then
    setAnimation {| type := downwards_begin;
                    doneIndex := currentDoneIndex;
                    activeTimeout := None |} p
  else
    setAnimation {| type := upwards_begin;
                    doneIndex := Some ((currentDoneIndex ?? -1) + 1);
                    activeTimeout := None |} p.

(** How a [case] of the [switch] in [updateScrollerAnimation] is left:
    by [return], or by [break] to the code that arms the timer. *)
Inductive Completion := Return | Break.

(** The [switch (animation.type)] of [updateScrollerAnimation].  The
    [default] case throws [unreachable]; the seven tags are all there is. *)
Definition switchAnimationType (currentDoneIndex targetDoneIndex : option Z)
    (p : Page num) : Page num * Completion :=
  let animation := animation (model p) in
  match type animation with
  | static =>
      if option_Z_eqb currentDoneIndex targetDoneIndex then (p, Return)
      else (startAnimation currentDoneIndex targetDoneIndex p, Break)
  | upwards_end =>
      let p' := setAnimation {| type := static;
                                doneIndex := doneIndex animation;
                                activeTimeout := None |} p in
      if option_Z_eqb currentDoneIndex targetDoneIndex then (p', Return)
      else (p', Break)
  | downwards_end =>
      let p' := setAnimation {| type := static;
                                doneIndex := doneIndex animation;
                                activeTimeout := None |} p in
      if option_Z_eqb currentDoneIndex targetDoneIndex then (p', Return)
      else (p', Break)
  | upwards_begin =>
      (setAnimation {| type := upwards_moving;
                       doneIndex := doneIndex animation;
                       activeTimeout := None |} p, Break)
  | upwards_moving =>
      (setAnimation {| type := upwards_end;
                       doneIndex := doneIndex animation;
                       activeTimeout := None |} p, Break)
  | downwards_begin =>
      (setAnimation {| type := downwards_moving;
                       doneIndex := doneIndex animation;
                       activeTimeout := None |} p, Break)
  | downwards_moving =>
      (setAnimation {| type := downwards_end;
                       doneIndex :=
                         match doneIndex animation with
                         | None => None
                         | Some d => if d =? 0 then None else Some (d - 1)
                         end;
                       activeTimeout := None |} p, Break)
  end.

(** [animation.activeTimeout = setTimeout(...)]: the handle is stored in
    the animation object that [setAnimation] has just installed. *)
Definition armTimeout (p : Page num) : Page num :=
  let a := animation (model p) in
  {| model := {| totalPoints := totalPoints (model p);
                 model_goals := model_goals (model p);
                 animation := {| type := type a;
                                 doneIndex := doneIndex a;
                                 activeTimeout := Some (Z.pos (nextTimeout p)) |} |};
     nextTimeout := Pos.succ (nextTimeout p) |}.

Definition updateScrollerAnimation (p : Page num) : Page num :=
  let animation := animation (model p) in
  if truthy (activeTimeout animation) then p
  else
    match totalPoints (model p) with
    | None => p
    | Some totalPoints =>
        let currentDoneIndex := doneIndex animation in
        let targetDoneIndex := calculateDoneIndex totalPoints in
        match switchAnimationType currentDoneIndex targetDoneIndex p with
        | (p', Return) => p'
        | (p', Break) => armTimeout p'
        end
    end.

(** [renderGoals] and [render] first call [updateScrollerAnimation]; the
    rest of both only reads the model and writes the DOM. *)
Definition renderGoals (p : Page num) : Page num := updateScrollerAnimation p.

Definition render (p : Page num) : Page num := renderGoals p.

(** The callback given to [setTimeout]: it clears [activeTimeout] of the
    animation object it armed, which is still [model.animation] when it
    fires, and renders. *)
Definition timeoutCallback (p : Page num) : Page num :=
  let a := animation (model p) in
  renderGoals
    {| model := {| totalPoints := totalPoints (model p);
                   model_goals := model_goals (model p);
                   animation := {| type := type a;
                                   doneIndex := doneIndex a;
                                   activeTimeout := None |} |};
       nextTimeout := nextTimeout p |}.

(** [fetchAndUpdate] of [main], for a fetch that returned [total]. *)
Definition fetchAndUpdate (total : option num) (p : Page num) : Page num :=
  render (setTotalPoints total p).

(** The [ui] closure right after its construction: the initial model,
    rendered once. *)
Definition ui (initialTotalPoints : num) : Page num :=
  render {| model := {| totalPoints := Some initialTotalPoints;
                        model_goals := loadGoalsFromConfig;
                        animation := initializeAnimation initialTotalPoints |};
            nextTimeout := 1%positive |}.

(** *** The slot projector *)

Definition goal_position (m : UIModel num) (index : Z) : Z :=
  index - (doneIndex (animation m) ?? 0).

Definition goal_remaining (m : UIModel num) : Z :=
  Z.of_nat (List.length (model_goals m)) - (doneIndex (animation m) ?? 0).

Definition goal_levels (m : UIModel num) : option (list GoalState) :=
  let scrollAnimation := animation m in
  let remaining := goal_remaining m in
  if remaining =? 1 then Some [completed; completed; completed; completed]
  else if remaining =? 2 then Some [completed; completed; completed; active]
  else if remaining =? 3 then Some [completed; completed; active; upcoming]
  else
    match doneIndex scrollAnimation, type scrollAnimation with
    | None, downwards_end => Some [active; active; upcoming; upcoming]
    | _, _ => None
    end.

Record ElementAnimation := {
  covered : option GoalAnimation;
  others : option GoalAnimation
}.

Definition goal_elementAnimation (m : UIModel num) : ElementAnimation :=
  let scrollAnimation := animation m in
  let remaining := goal_remaining m in
  match type scrollAnimation with
  | static => {| covered := None; others := Some clear |}
  | upwards_begin => {| covered := None; others := None |}
  | upwards_moving =>
      {| covered := None;
         others := if option_Z_eqb (doneIndex scrollAnimation) (Some 0) || (remaining <=? 2)
                   then None else Some up |}
  | upwards_end =>
      {| covered := Some no_box_shadow;
         others := if option_Z_eqb (doneIndex scrollAnimation) (Some 0) || (remaining <=? 2)
                   then None else Some up |}
  | downwards_begin =>
      {| covered := Some no_box_shadow;
         others := if truthy (doneIndex scrollAnimation) && (remaining >? 2)
                   then Some down else None |}
  | downwards_moving =>
      {| covered := None;
         others := if truthy (doneIndex scrollAnimation) && (remaining >? 2)
                   then Some down else None |}
  | downwards_end =>
      {| covered := Some no_box_shadow;
         others := if truthy (doneIndex scrollAnimation) && (remaining >? 2)
                   then Some clear else None |}
  end.

Definition goal_picker (m : UIModel num) (index : Z) : Z :=
  let remaining := goal_remaining m in
  goal_position m index + (if remaining <=? 3 then 3 - remaining else 0).

Definition goal_positionOffset (m : UIModel num) : Z :=
  if ((doneIndex (animation m) ?? -1) >=? 1) && (goal_remaining m >=? 3) then 1 else 0.

(** [levels?.[i] ?? fallback] *)
Definition level_or (levels : option (list GoalState)) (i : Z) (fallback : GoalState)
    : GoalState :=
  match levels with
  | Some l => array_get l i ?? fallback
  | None => fallback
  end.

(** [determineGoalInfo(index, goal)]; the [goal] argument is not used by
    the source.  [None] is the [undefined] of a goal that is not shown. *)
Definition determineGoalInfo (m : UIModel num) (index : Z) : option GoalInfo :=
  let scrollAnimation := animation m in
  let position := goal_position m index in
  if position <? -2 then None
  else
    let remaining := goal_remaining m in
    let levels := goal_levels m in
    let elementAnimation := goal_elementAnimation m in
    let picker := goal_picker m index in
    let positionOffset := goal_positionOffset m in
    match type scrollAnimation with
    | static =>
        match doneIndex scrollAnimation with
        | None =>
            if picker =? 0 then
              Some {| state := level_or levels (picker + 1) active;
                      position := picker;
                      info_animation := others elementAnimation |}
            else if picker =? 1 then
              Some {| state := level_or levels (picker + 1) upcoming;
                      position := picker;
                      info_animation := others elementAnimation |}
            else if picker =? 2 then
              Some {| state := level_or levels (picker + 1) upcoming;
                      position := picker;
                      info_animation := others elementAnimation |}
            else None
        | Some _ =>
            if picker =? 0 then
              Some {| state := level_or levels (picker + 1) completed;
                      position := picker;
                      info_animation := others elementAnimation |}
            else if picker =? 1 then
              Some {| state := level_or levels (picker + 1) active;
                      position := picker;
                      info_animation := others elementAnimation |}
            else if picker =? 2 then
              Some {| state := level_or levels (picker + 1) upcoming;
                      position := picker;
                      info_animation := others elementAnimation |}
            else None
        end
    | upwards_begin | upwards_moving | upwards_end
    | downwards_begin | downwards_moving | downwards_end =>
        if picker =? -1 then
          if remaining <=? 2 then None
          else
            Some {| state := level_or levels (picker + 1) completed;
                    position := picker + positionOffset;
                    info_animation := covered elementAnimation |}
        else if picker =? 0 then
          Some {| state := level_or levels (picker + 1) completed;
                  position := picker + positionOffset;
                  info_animation := others elementAnimation |}
        else if picker =? 1 then
          Some {| state := level_or levels (picker + 1) active;
                  position := picker + positionOffset;
                  info_animation := others elementAnimation |}
        else if picker =? 2 then
          Some {| state := level_or levels (picker + 1) upcoming;
                  position := picker + positionOffset;
                  info_animation := others elementAnimation |}
        else None
    end.

End Overlay.

(** ** Key check: [createStateLoader] and [main] *)

(** What an [async] function settles to. *)
Inductive Settled (A : Type) :=
| Fulfilled (value : A)
| Rejected.

Arguments Fulfilled {A} value.
Arguments Rejected {A}.

(** The function [createStateLoader] returns; it is determined by the
    URL it fetches. *)
Record FetchState := {
  fetchUrl : string
}.

(** What [main] does to the outside, in order. *)
Inductive MainEffect :=
| SetCounterText (innerText : string)
| CallFetchState (f : FetchState)
| SetInterval (ms : Z)
| Reject.

Section StateLoader.

Context {num : Type}.

Variable config : Config num.

(** [location.host === '127.0.0.1:5500'] *)
Variable isDevelopment : bool.

(** The external collaborators of [crypto.mjs]: [None] stands for a
    thrown exception or a rejected promise. *)
Variable CryptoKey : Type.
Variable importKey : string -> option CryptoKey.
Variable decrypt : EncryptedText -> CryptoKey -> option string.

(** [search_key] is [new URLSearchParams(location.search).get('key')],
    [None] when the parameter is absent.  A character of the string stands
    for one UTF-16 code unit. *)
Definition tryLoadKeyFromSearch (search_key : option string) : option CryptoKey :=
  match search_key with
  | None => None
  | Some base64 =>
      if (String.length base64 =? 0)%nat
         || (String.length base64 <? 43)%nat
         || (44 <? String.length base64)%nat
      then None
      else importKey base64
  end.

Definition createStateLoader (search_key : option string) : Settled (option FetchState) :=
  let encryptedBucketUrl := encryptedBucketUrl config in
  match tryLoadKeyFromSearch search_key with
  | None => Fulfilled None
  | Some key =>
      match decrypt encryptedBucketUrl key with
      | None => Rejected
      | Some url =>
          Fulfilled (Some {| fetchUrl := if isDevelopment
                                         then "./debug-points.json"%string
                                         else url |})
      end
  end.

(** [main], up to the installation of the polling interval; the page
    updates of [fetchAndUpdate] are in [Overlay]. *)
Definition main (search_key : option string) : list MainEffect :=
  SetCounterText "..." ::
  match createStateLoader search_key with
  | Rejected => [Reject]
  | Fulfilled None => [SetCounterText "Invalid key"]
  | Fulfilled (Some fetchState) =>
      [CallFetchState fetchState; SetInterval (if isDevelopment then 1000 else 15000)]
  end.

(** Whether an effect of [main] polls the data source, now or later. *)
Definition polls (e : MainEffect) : bool :=
  match e with
  | CallFetchState _ | SetInterval _ => true
  | SetCounterText _ | Reject => false
  end.

End StateLoader.

(** ** Runs of the state machine *)

Section Runs.

Context {num : Type} `{JSNumber num}.

Variable config : Config num.

(** What drives the page after start-up: a poll that delivered [total]
    ([None] for a failed fetch), or the expiry of the animation timer.
    The only timer the state machine has is the one [activeTimeout]
    names, so an expiry with no handle stored is no event at all. *)
Inductive PageEvent :=
| Poll (total : option num)
| TimerExpired.

Definition handle (e : PageEvent) (p : Page num) : Page num :=
  match e with
  | Poll total => fetchAndUpdate config total p
  | TimerExpired =>
      match activeTimeout (animation (model p)) with
      | Some _ => timeoutCallback config p
      | None => p
      end
  end.

Definition handle_all (es : list PageEvent) (p : Page num) : Page num :=
  fold_left (fun q e => handle e q) es p.

Inductive reachable (initialPoints : num) : Page num -> Prop :=
| reachable_ui : reachable initialPoints (ui config initialPoints)
| reachable_handle : forall p e,
    reachable initialPoints p -> reachable initialPoints (handle e p).

(** The phase of a page: tag and done index. *)
Definition phase (p : Page num) : ScrollerAnimationType * option Z :=
  (type (animation (model p)), doneIndex (animation (model p))).

Definition armed (p : Page num) : bool :=
  truthy (activeTimeout (animation (model p))).

(** The pages after each of [n] further calls of
    [updateScrollerAnimation], every one made by the timer callback when
    the timer of the call before expires. *)
Fixpoint pages_on_expiry (n : nat) (p : Page num) : list (Page num) :=
  match n with
  | O => []
  | S n' =>
      let p' := handle TimerExpired p in
      p' :: pages_on_expiry n' p'
  end.

(** The pages after each of [n] calls of [updateScrollerAnimation]:
    the first made directly, the others on timer expiry. *)
Definition pages_after (n : nat) (p : Page num) : list (Page num) :=
  match n with
  | O => []
  | S n' =>
      let p' := updateScrollerAnimation config p in
      p' :: pages_on_expiry n' p'
  end.

Definition phases_after (n : nat) (p : Page num)
    : list (ScrollerAnimationType * option Z) :=
  map phase (pages_after n p).

Definition armed_after (n : nat) (p : Page num) : list bool :=
  map armed (pages_after n p).

End Runs.

Arguments PageEvent : clear implicits.

(** ** Predicates on the catalog *)

Section Catalog.

Context {num : Type} `{JSNumber num}.

Variable config : Config num.

(** Goal [i] of the catalog exists and its threshold is at most [pts]. *)
Definition qualifies (pts : num) (i : Z) : Prop :=
  exists g, array_get (goals config) i = Some g /\ lte (points g) pts = true.

(** The catalog invariant of the data model: thresholds strictly
    increase with the index. *)
Fixpoint strictly_ascending_from (previous : num) (rest : list (GoalConfig num)) : bool :=
  match rest with
  | [] => true
  | g :: rest' =>
      lte previous (points g) && negb (lte (points g) previous)
      && strictly_ascending_from (points g) rest'
  end.

Definition strictly_ascending : bool :=
  match goals config with
  | [] => true
  | g :: rest => strictly_ascending_from (points g) rest
  end.

(** A done index is [null] or the index of a goal of the catalog. *)
Definition doneIndex_in_range (d : option Z) : Prop :=
  match d with
  | None => True
  | Some i => 0 <= i < Z.of_nat (List.length (goals config))
  end.

End Catalog.

(** ** Example catalogs *)

Definition goal_at (pts : Z) : GoalConfig Z :=
  {| points := pts; text := "goal"; subtext := None |}.

Definition catalog (thresholds : list Z) : Config Z :=
  {| goals := map goal_at thresholds;
     encryptedBucketUrl := {| iv := "iv"; data := "data" |} |}.

Definition config3 : Config Z := catalog [100; 200; 300].

Definition config5 : Config Z := catalog [100; 200; 300; 400; 500].

(** A page at rest in [static(doneIndex)] showing [total] points. *)
Definition page_at (cfg : Config Z) (ty : ScrollerAnimationType) (d : option Z)
    (total : option Z) : Page Z :=
  {| model := {| totalPoints := total;
                 model_goals := loadGoalsFromConfig cfg;
                 animation := {| type := ty; doneIndex := d; activeTimeout := None |} |};
     nextTimeout := 1%positive |}.

From Stdlib Require Import Ascii NArith.

(** ** The platform's base64: [btoa] and [atob] *)

(** The sixty-four characters of base64, in the order of their values. *)
Definition base64_alphabet : list ascii :=
  list_ascii_of_string
    "ABCDEFGHIJKLMNOPQRSTUVWXYZabcdefghijklmnopqrstuvwxyz0123456789+/".

Definition base64_char (sextet : N) : ascii :=
  nth (N.to_nat sextet) base64_alphabet "="%char.

Fixpoint index_of (c : ascii) (l : list ascii) : option N :=
  match l with
  | [] => None
  | x :: l' =>
      if Ascii.eqb x c then Some 0%N
      else option_map N.succ (index_of c l')
  end.

Definition base64_value (c : ascii) : option N := index_of c base64_alphabet.

(** The bits of a binary string, six at a time; the last group is filled
    up with zero bits. *)
Fixpoint sextets (s : list ascii) : list N :=
  match s with
  | [] => []
  | [a] =>
      let a := N_of_ascii a in
      [a / 4; (a mod 4) * 16]%N
  | [a; b] =>
      let a := N_of_ascii a in
      let b := N_of_ascii b in
      [a / 4; (a mod 4) * 16 + b / 16; (b mod 16) * 4]%N
  | a :: b :: c :: rest =>
      let a := N_of_ascii a in
      let b := N_of_ascii b in
      let c := N_of_ascii c in
      [a / 4; (a mod 4) * 16 + b / 16; (b mod 16) * 4 + c / 64; c mod 64]%N
      ++ sextets rest
  end.

Definition base64_padding (s : list ascii) : list ascii :=
  match (List.length s mod 3)%nat with
  | 0%nat => []
  | 1%nat => ["="; "="]%char
  | _ => ["="]%char
  end.

(** [window.btoa], on the code units of a binary string: base64 with
    padding (RFC 4648, section 4).  A Rocq character is a byte, so the
    exception for code units above 255 has no counterpart. *)
Definition btoa_units (s : list ascii) : list ascii :=
  map base64_char (sextets s) ++ base64_padding s.

Definition btoa (s : string) : string :=
  string_of_list_ascii (btoa_units (list_ascii_of_string s)).

(** ASCII whitespace: tab, line feed, form feed, carriage return, space. *)
Definition ascii_whitespace (c : ascii) : bool :=
  (N_of_ascii c =? 9)%N || (N_of_ascii c =? 10)%N || (N_of_ascii c =? 12)%N
  || (N_of_ascii c =? 13)%N || (N_of_ascii c =? 32)%N.

(** Remove one or two [=] from the end. *)
Definition strip_padding (l : list ascii) : list ascii :=
  match rev l with
  | c1 :: c2 :: r =>
      if Ascii.eqb c1 "=" then
        if Ascii.eqb c2 "=" then rev r else rev (c2 :: r)
      else l
  | [c1] => if Ascii.eqb c1 "=" then [] else l
  | [] => l
  end.

Fixpoint all_some {A : Type} (l : list (option A)) : option (list A) :=
  match l with
  | [] => Some []
  | Some x :: l' => option_map (cons x) (all_some l')
  | None :: _ => None
  end.

(** The bytes of a list of six-bit values; the bits left over at the end
    are dropped. *)
Fixpoint bytes_of_sextets (l : list N) : list ascii :=
  match l with
  | i1 :: i2 :: i3 :: i4 :: rest =>
      ascii_of_N (i1 * 4 + i2 / 16)
      :: ascii_of_N ((i2 mod 16) * 16 + i3 / 4)
      :: ascii_of_N ((i3 mod 4) * 64 + i4)
      :: bytes_of_sextets rest
  | [i1; i2; i3] =>
      [ascii_of_N (i1 * 4 + i2 / 16); ascii_of_N ((i2 mod 16) * 16 + i3 / 4)]
  | [i1; i2] => [ascii_of_N (i1 * 4 + i2 / 16)]
  | _ => []
  end%N.

(** [window.atob], on code units: the forgiving base64 decoding of the
    HTML standard; [None] is the [InvalidCharacterError]. *)
Definition atob_units (data : list ascii) : option (list ascii) :=
  let data := filter (fun c => negb (ascii_whitespace c)) data in
  let data := if (List.length data mod 4 =? 0)%nat then strip_padding data else data in
  if (List.length data mod 4 =? 1)%nat then None
  else option_map bytes_of_sextets (all_some (map base64_value data)).

Definition atob (data : string) : option string :=
  option_map string_of_list_ascii (atob_units (list_ascii_of_string data)).

(** The table of characters, checked entry by entry: a character names
    its own value, and is no whitespace, no [=], no [_] and no [-]. *)
Definition base64_entry_ok (k : nat) : bool :=
  let i := N.of_nat k in
  let c := base64_char i in
  match base64_value c with
  | Some j => (j =? i)%N
  | None => false
  end
  && negb (ascii_whitespace c)
  && negb (Ascii.eqb c "=") && negb (Ascii.eqb c "_") && negb (Ascii.eqb c "-").


(** A character of base64 data: no whitespace, no [=], no [_], no [-]. *)
Definition base64_data (c : ascii) : Prop :=
  ascii_whitespace c = false /\ c <> "="%char /\ c <> "_"%char /\ c <> "-"%char.


(** ** crypto.mjs *)

Module crypto.

(** [s.replace(/from/g, to)] for single characters. *)
Definition replace_char (from to : ascii) (s : string) : string :=
  string_of_list_ascii
    (map (fun c => if Ascii.eqb c from then to else c) (list_ascii_of_string s)).

Definition arrayBufferToBase64Url (buffer : list Byte.byte) : string :=
  replace_char "+" "-" (replace_char "/" "_" (btoa (string_of_list_byte buffer))).

(** [None] when [atob] throws. *)
Definition base64UrlToArrayBuffer (base64 : string) : option (list Byte.byte) :=
  option_map list_byte_of_string
    (atob (replace_char "-" "+" (replace_char "_" "/" base64))).


Section Subtle.

(** [crypto.subtle], [TextEncoder] and [TextDecoder] are the platform's;
    [None] stands for a rejected promise. *)
Context {CryptoKey : Type}.
Variable subtle_importKey : list Byte.byte -> option CryptoKey.
Variable subtle_exportKey : CryptoKey -> list Byte.byte.
Variable subtle_encrypt : list Byte.byte -> CryptoKey -> list Byte.byte -> list Byte.byte.
Variable subtle_decrypt :
  list Byte.byte -> CryptoKey -> list Byte.byte -> option (list Byte.byte).
Variable text_encode : string -> list Byte.byte.
Variable text_decode : list Byte.byte -> string.

Definition exportKey (key : CryptoKey) : string :=
  let raw := subtle_exportKey key in
  arrayBufferToBase64Url raw.

Definition importKey (base64 : string) : option CryptoKey :=
  match base64UrlToArrayBuffer base64 with
  | None => None
  | Some raw => subtle_importKey raw
  end.


Definition decrypt (encrypted : EncryptedText) (key : CryptoKey) : option string :=
  match base64UrlToArrayBuffer (iv encrypted) with
  | None => None
  | Some iv =>
      match base64UrlToArrayBuffer (data encrypted) with
      | None => None
      | Some data =>
          match subtle_decrypt iv key data with
          | None => None
          | Some decrypted => Some (text_decode decrypted)
          end
      end
  end.

End Subtle.

End crypto.

(** ** Rendering the goals into the page *)

Section Dom.

Context {num : Type}.

(** The attributes [renderGoal] and [placeGoal] write on a goal's
    element.  Its texts, its marquee and its style are left out. *)
Record GoalElement := {
  data_points : num;
  data_state : option GoalState;
  data_move : option GoalAnimation;
  data_active_transition : bool
}.

(** The part of the document the renderer works on: the element of each
    goal ([model.goals[i].element], [None] until it is created), and the
    element children of [goalsContainer], each named by the index of the
    goal it belongs to. *)
Record Dom := {
  goal_element : nat -> option GoalElement;
  container_children : list nat;
  data_scroll_state : option ScrollerAnimationType
}.

(** [removeChild], and the removal that [appendChild] and [insertBefore]
    start with when the node is in the tree already. *)
Definition removeChild (child : nat) (children : list nat) : list nat :=
  filter (fun c => negb (c =? child)%nat) children.

Definition appendChild (node : nat) (children : list nat) : list nat :=
  removeChild node children ++ [node].

Fixpoint insert_before (node reference : nat) (children : list nat) : list nat :=
  match children with
  | [] => [node]
  | c :: rest =>
      if (c =? reference)%nat then node :: c :: rest
      else c :: insert_before node reference rest
  end.

Definition insertBefore (node reference : nat) (children : list nat) : list nat :=
  insert_before node reference (removeChild node children).

Definition update_element (index : nat) (f : GoalElement -> GoalElement)
    (elements : nat -> option GoalElement) : nat -> option GoalElement :=
  fun i => if (i =? index)%nat then option_map f (elements i) else elements i.

Definition set_data_state (s : GoalState) (e : GoalElement) : GoalElement :=
  {| data_points := data_points e; data_state := Some s;
     data_move := data_move e;
     data_active_transition := data_active_transition e |}.

Definition set_data_move (a : option GoalAnimation) (e : GoalElement) : GoalElement :=
  {| data_points := data_points e; data_state := data_state e;
     data_move := a;
     data_active_transition := data_active_transition e |}.

Definition set_data_active_transition (e : GoalElement) : GoalElement :=
  {| data_points := data_points e; data_state := data_state e;
     data_move := data_move e;
     data_active_transition := true |}.

(** [placeGoal(element, position)] for the element of goal [index]. *)
Definition placeGoal (index : nat) (position : Z) (dom : Dom) : Dom :=
  let currentElement := array_get (container_children dom) position in
  match currentElement with
  | Some current =>
      if (current =? index)%nat then dom
      else
        {| goal_element :=
             update_element index set_data_active_transition (goal_element dom);
           container_children := insertBefore index current (container_children dom);
           data_scroll_state := data_scroll_state dom |}
  | None =>
      {| goal_element :=
           update_element index set_data_active_transition (goal_element dom);
         container_children := appendChild index (container_children dom);
         data_scroll_state := data_scroll_state dom |}
  end.

(** [renderGoal(index)] *)
Definition renderGoal (m : UIModel num) (index : nat) (dom : Dom) : Dom :=
  match nth_error (model_goals m) index with
  | None => dom
  | Some goal =>
      match determineGoalInfo m (Z.of_nat index) with
      | None =>
          match goal_element dom index with
          | Some _ =>
              if existsb (fun c => (c =? index)%nat) (container_children dom) then
                {| goal_element := goal_element dom;
                   container_children := removeChild index (container_children dom);
                   data_scroll_state := data_scroll_state dom |}
              else dom
          | None => dom
          end
      | Some info =>
          let created :=
            match goal_element dom index with
            | Some _ => goal_element dom
            | None =>
                fun i =>
                  if (i =? index)%nat then
                    Some {| data_points := points (config goal);
                            data_state := None; data_move := None;
                            data_active_transition := false |}
                  else goal_element dom i
            end in
          let dom1 :=
            {| goal_element := update_element index (set_data_state (state info)) created;
               container_children := container_children dom;
               data_scroll_state := data_scroll_state dom |} in
          let dom2 := placeGoal index (position info) dom1 in
          {| goal_element :=
               update_element index (set_data_move (info_animation info))
                              (goal_element dom2);
             container_children := container_children dom2;
             data_scroll_state := data_scroll_state dom2 |}
      end
  end.

(** The loop of [renderGoals]. *)
Definition renderGoals_loop (m : UIModel num) (dom : Dom) : Dom :=
  fold_left (fun d index => renderGoal m index d)
            (seq 0 (List.length (model_goals m))) dom.

(** The children of the container after [placeGoal]. *)
Definition placed_children (index : nat) (position : Z) (children : list nat)
    : list nat :=
  match array_get children position with
  | Some current =>
      if (current =? index)%nat then children
      else insertBefore index current children
  | None => appendChild index children
  end.

(** Whether goal [index] is shown. *)
Definition shown (m : UIModel num) (index : nat) : bool :=
  match determineGoalInfo m (Z.of_nat index) with
  | Some _ => true
  | None => false
  end.

(** The container holds elements of goals of the list only, each once,
    and every one of them has been created. *)
Definition container_ok (m : UIModel num) (dom : Dom) : Prop :=
  NoDup (container_children dom) /\
  forall c, In c (container_children dom) ->
    (c < List.length (model_goals m))%nat /\ goal_element dom c <> None.

(** [renderGoals]: the state machine first, then the tag of the phase on
    the container, then the loop over the goals. *)
Definition renderGoals_dom `{JSNumber num} (config : Config num)
    (p : Page num) (dom : Dom) : Page num * Dom :=
  let p' := updateScrollerAnimation config p in
  let dom' := {| goal_element := goal_element dom;
                 container_children := container_children dom;
                 data_scroll_state := Some (type (animation (model p'))) |} in
  (p', renderGoals_loop (model p') dom').

End Dom.

Arguments GoalElement : clear implicits.
Arguments Dom : clear implicits.


(** An example container: every goal of a list of five has its element;
    the container holds those of goals 4, 0 and 2, in this order. *)
Definition example_dom : Dom Z :=
  {| goal_element := fun i =>
       if (i <? 5)%nat then
         Some {| data_points := 0; data_state := None; data_move := None;
                 data_active_transition := false |}
       else None;
     container_children := [4; 0; 2]%nat;
     data_scroll_state := None |}.

(** ** The fetch function of [createStateLoader] *)

Section FetchFunction.

Context {num : Type}.

(** A value [response.json()] can resolve to.  An object is given by
    its properties. *)
#[warnings="-register-all"]
Inductive JSON :=
| JNull
| JBool (b : bool)
| JNumber (n : num)
| JString (s : string)
| JArray (items : list JSON)
| JObject (property : string -> option JSON).

(** Whether a number is truthy (not 0 and not NaN). *)
Variable number_truthy : num -> bool.

Definition json_truthy (v : JSON) : bool :=
  match v with
  | JNull => false
  | JBool b => b
  | JNumber n => number_truthy n
  | JString s => negb (String.length s =? 0)%nat
  | JArray _ | JObject _ => true
  end.

(** [typeof v === "object"] *)
Definition typeof_object (v : JSON) : bool :=
  match v with
  | JNull | JArray _ | JObject _ => true
  | JBool _ | JNumber _ | JString _ => false
  end.

Definition isArray (v : JSON) : bool :=
  match v with
  | JArray _ => true
  | _ => false
  end.

(** [v[key]] for an object that is not an array; the other values do
    not get this far. *)
Definition get_property (key : string) (v : JSON) : option JSON :=
  match v with
  | JObject property => property key
  | _ => None
  end.

(** [key in v] *)
Definition has_property (key : string) (v : JSON) : bool :=
  match get_property key v with
  | Some _ => true
  | None => false
  end.

(** What [fetch] resolves to; [response_json] is [None] when
    [response.json()] rejects. *)
Record Response := {
  response_ok : bool;
  response_json : option JSON
}.

(** The function [createStateLoader] returns, called with the network
    given by [fetch]; [None] from [fetch] is a rejected promise.  The
    result [None] is the [null] of the source. *)
Definition callFetchState (fetch : string -> option Response) (f : FetchState)
    : option num :=
  match fetch (fetchUrl f) with
  | None => None
  | Some response =>
      if negb (response_ok response) then None
      else
        match response_json response with
        | None => None
        | Some body =>
            if negb (json_truthy body)
               || negb (typeof_object body)
               || isArray body
               || negb (has_property "total" body)
            then None
            else
              match get_property "total" body with
              | Some (JNumber total) => Some total
              | _ => None
              end
        end
  end.

End FetchFunction.

Arguments JSON : clear implicits.
Arguments Response : clear implicits.

(** ** [pageAutoRefresh] *)

(** The two variables of the loop. *)
Record RefreshState := {
  previousText : string;
  previousEtag : string
}.

(** What the fetch of [version.json] resolves to: the [ETag] header
    ([None] when there is none) and [JSON.stringify] of the parsed body
    ([None] when [response.json()] rejects). *)
Record VersionResponse := {
  version_ok : bool;
  version_ETag : option string;
  version_text : option string
}.

(** [previousEtag === newEtag], a string against a string or null. *)
Definition same_etag (previousEtag : string) (newEtag : option string) : bool :=
  match newEtag with
  | Some e => String.eqb previousEtag e
  | None => false
  end.

(** One turn of the loop after the wait: the new variables, and whether
    the page is reloaded.  [None] is a fetch that threw. *)
Definition pageAutoRefresh_turn (st : RefreshState) (r : option VersionResponse)
    : RefreshState * bool :=
  match r with
  | None => (st, false)
  | Some response =>
      if negb (version_ok response) then (st, false)
      else
        let newEtag := version_ETag response in
        if same_etag (previousEtag st) newEtag then (st, false)
        else
          let st1 := {| previousText := previousText st;
                        previousEtag := newEtag ?? EmptyString |} in
          match version_text response with
          | None => (st1, false)
          | Some newText =>
              if String.eqb newText (previousText st1) then (st1, false)
              else
                let st2 := {| previousText := newText;
                              previousEtag := previousEtag st1 |} in
                if String.eqb (previousText st1) EmptyString then (st2, false)
                else (st2, true)
          end
  end.

(** The loop over the responses of successive turns, up to the first
    reload: whether the page is reloaded. *)
Fixpoint pageAutoRefresh_from (st : RefreshState) (rs : list (option VersionResponse))
    : bool :=
  match rs with
  | [] => false
  | r :: rs' =>
      let (st', reload) := pageAutoRefresh_turn st r in
      if reload then true else pageAutoRefresh_from st' rs'
  end.

Definition pageAutoRefresh (rs : list (option VersionResponse)) : bool :=
  pageAutoRefresh_from {| previousText := EmptyString; previousEtag := EmptyString |} rs.

(** Every ok response whose body parses has the text [text]. *)
Definition always_text (text : string) (rs : list (option VersionResponse)) : bool :=
  forallb (fun r => match r with
                    | Some response =>
                        if version_ok response then
                          match version_text response with
                          | Some t => String.eqb t text
                          | None => true
                          end
                        else true
                    | None => true
                    end) rs.

(** ** Further runs of the state machine *)

Section Settling.

Context {num : Type} `{JSNumber num}.

Variable config : Config num.

(** The page after [n] calls of [updateScrollerAnimation], the first
    made directly and the others on timer expiry: the last page of
    [pages_after n p], or [p] itself when [n] is 0. *)
Definition page_after (n : nat) (p : Page num) : Page num :=
  match n with
  | O => p
  | S n' => Nat.iter n' (handle config TimerExpired) (updateScrollerAnimation config p)
  end.

(** How many goals lie between the done index shown and the target,
    with [null] counted as -1. *)
Definition cycles_to_target (current target : option Z) : nat :=
  Z.to_nat (Z.abs ((target ?? -1) - (current ?? -1))).

(** The done index one cycle further towards [target]. *)
Definition next_doneIndex (current target : option Z) : option Z :=
  if (current ?? -1) >? (target ?? -1) then
    match current with
    | None => None
    | Some d => if d =? 0 then None else Some (d - 1)
    end
  else Some ((current ?? -1) + 1).

(** The page as the timer callback sees it before it renders. *)
Definition timer_cleared (p : Page num) : Page num :=
  let a := animation (model p) in
  {| model := {| totalPoints := totalPoints (model p);
                 model_goals := model_goals (model p);
                 animation := {| type := type a;
                                 doneIndex := doneIndex a;
                                 activeTimeout := None |} |};
     nextTimeout := nextTimeout p |}.

End Settling.

(** The phases that animate towards or away from a goal. *)
Definition names_a_goal (ty : ScrollerAnimationType) : bool :=
  match ty with
  | static | downwards_end => false
  | upwards_begin | upwards_moving | upwards_end
  | downwards_begin | downwards_moving => true
  end.

(** ** Reading the slot projector *)

(** The order of the lifecycle states down the list on screen. *)
Definition GoalState_rank (s : GoalState) : Z :=
  match s with
  | completed => 0
  | active => 1
  | upcoming => 2
  end.

(** Whether a transition tag scrolls the list. *)
Definition scrolls (tag : option GoalAnimation) : bool :=
  match tag with
  | Some up | Some down => true
  | Some clear | Some no_box_shadow | None => false
  end.

(** The model with another phase. *)
Definition with_phase {num : Type} (m : UIModel num)
    (ty : ScrollerAnimationType) (d : option Z) : UIModel num :=
  {| totalPoints := totalPoints m;
     model_goals := model_goals m;
     animation := {| type := ty; doneIndex := d;
                     activeTimeout := activeTimeout (animation m) |} |}.

(** * Properties *)

(** ** [findLastIndex] *)

Section FindLastIndex.

Context {A : Type} (predicate : A -> bool) (arr : list A).

Lemma findLastIndex_loop_range (k1 : nat) :
  -1 <= findLastIndex_loop predicate arr k1 < Z.of_nat k1.
Proof.
  induction k1 as [|k IH]; cbn [findLastIndex_loop]; [lia|].
  destruct (nth_error arr k) as [kValue|]; [destruct (predicate kValue)|]; lia.
Qed.

Lemma findLastIndex_loop_found (k1 : nat) :
  0 <= findLastIndex_loop predicate arr k1 ->
  exists x, nth_error arr (Z.to_nat (findLastIndex_loop predicate arr k1)) = Some x
            /\ predicate x = true.
Proof.
  induction k1 as [|k IH]; cbn [findLastIndex_loop]; [lia|].
  destruct (nth_error arr k) as [kValue|] eqn:Hk; [|exact IH].
  destruct (predicate kValue) eqn:Hp; [|exact IH].
  intros _. exists kValue. now rewrite Nat2Z.id.
Qed.

Lemma findLastIndex_loop_last (k1 j : nat) (x : A) :
  (j < k1)%nat -> nth_error arr j = Some x -> predicate x = true ->
  Z.of_nat j <= findLastIndex_loop predicate arr k1.
Proof.
  induction k1 as [|k IH]; [lia|]. intros Hj Hx Hp.
  cbn [findLastIndex_loop].
  destruct (Nat.eq_dec j k) as [->|Hne].
  - rewrite Hx, Hp. lia.
  - assert (Hrec : Z.of_nat j <= findLastIndex_loop predicate arr k)
      by (apply IH; [lia|assumption|assumption]).
    destruct (nth_error arr k) as [kValue|]; [destruct (predicate kValue)|]; lia.
Qed.

Lemma findLastIndex_range : -1 <= findLastIndex predicate arr < Z.of_nat (List.length arr).
Proof. apply findLastIndex_loop_range. Qed.

Lemma findLastIndex_found :
  0 <= findLastIndex predicate arr ->
  exists x, array_get arr (findLastIndex predicate arr) = Some x /\ predicate x = true.
Proof.
  intros Hr. unfold array_get.
  destruct (Z.ltb_spec (findLastIndex predicate arr) 0); [lia|].
  now apply findLastIndex_loop_found.
Qed.

Lemma findLastIndex_last (j : Z) (x : A) :
  array_get arr j = Some x -> predicate x = true -> j <= findLastIndex predicate arr.
Proof.
  unfold array_get. destruct (Z.ltb_spec j 0) as [|Hj]; [discriminate|].
  intros Hx Hp.
  assert (Hlen : (Z.to_nat j < List.length arr)%nat)
    by (apply nth_error_Some; congruence).
  pose proof (findLastIndex_loop_last (List.length arr) (Z.to_nat j) x Hlen Hx Hp).
  unfold findLastIndex. lia.
Qed.

End FindLastIndex.

(** ** [calculateDoneIndex] *)

Section CalculateDoneIndex.

Context {num : Type} `{JSNumber num} (config : Config num).

Lemma calculateDoneIndex_Some (pts : num) (i : Z) :
  calculateDoneIndex config pts = Some i ->
  i = findLastIndex (fun x => lte (points x) pts) (goals config) /\ 0 <= i.
Proof.
  unfold calculateDoneIndex.
  destruct (Z.ltb_spec (findLastIndex (fun x => lte (points x) pts) (goals config)) 0);
    [discriminate|].
  intros [= <-]. split; [reflexivity|assumption].
Qed.

Lemma calculateDoneIndex_None (pts : num) :
  calculateDoneIndex config pts = None ->
  findLastIndex (fun x => lte (points x) pts) (goals config) < 0.
Proof.
  unfold calculateDoneIndex.
  destruct (Z.ltb_spec (findLastIndex (fun x => lte (points x) pts) (goals config)) 0);
    [auto|discriminate].
Qed.

Lemma calculateDoneIndex_in_range (pts : num) :
  doneIndex_in_range config (calculateDoneIndex config pts).
Proof.
  destruct (calculateDoneIndex config pts) as [i|] eqn:Hi; [|exact I].
  apply calculateDoneIndex_Some in Hi. destruct Hi as [-> Hpos].
  pose proof (findLastIndex_range (fun x => lte (points x) pts) (goals config)).
  cbn [doneIndex_in_range]. lia.
Qed.

(** The result is the greatest qualifying index, on any catalog. *)
Lemma calculateDoneIndex_greatest (pts : num) :
  match calculateDoneIndex config pts with
  | Some i => qualifies config pts i /\ forall j, qualifies config pts j -> j <= i
  | None => forall j, ~ qualifies config pts j
  end.
Proof.
  destruct (calculateDoneIndex config pts) as [i|] eqn:Hi.
  - apply calculateDoneIndex_Some in Hi. destruct Hi as [-> Hpos]. split.
    + apply (findLastIndex_found (fun x => lte (points x) pts)). assumption.
    + intros j [g [Hg Hle]].
      apply (findLastIndex_last (fun x => lte (points x) pts) _ j g); assumption.
  - apply calculateDoneIndex_None in Hi. intros j [g [Hg Hle]].
    pose proof (findLastIndex_last (fun x => lte (points x) pts) _ j g Hg Hle) as Hj.
    unfold array_get in Hg. destruct (Z.ltb_spec j 0); [discriminate|lia].
Qed.

(** More points never lower the done index, on any catalog. *)
Lemma calculateDoneIndex_monotone (totalPoints1 totalPoints2 : num) :
  lte totalPoints1 totalPoints2 = true ->
  (calculateDoneIndex config totalPoints1 ?? -1) <= (calculateDoneIndex config totalPoints2 ?? -1).
Proof.
  intros Hle.
  pose proof (calculateDoneIndex_greatest totalPoints1) as H1.
  pose proof (calculateDoneIndex_greatest totalPoints2) as H2.
  pose proof (calculateDoneIndex_in_range totalPoints2) as Hr.
  destruct (calculateDoneIndex config totalPoints1) as [i|]; cbn [nullish].
  - destruct H1 as [[g [Hg Hq]] _].
    assert (Hq2 : qualifies config totalPoints2 i).
    { exists g. split; [assumption|]. eapply lte_trans; eassumption. }
    destruct (calculateDoneIndex config totalPoints2) as [k|]; cbn [nullish].
    + destruct H2 as [_ Hmax]. apply Hmax. assumption.
    + exfalso. apply (H2 i). assumption.
  - destruct (calculateDoneIndex config totalPoints2) as [k|]; cbn [nullish];
      cbn [doneIndex_in_range] in Hr; lia.
Qed.

(** C2.  On a catalog sorted strictly ascending by points, for every
    number [totalPoints], [calculateDoneIndex totalPoints] is the greatest
    index [i] with [Catalog[i].points <= totalPoints], or [null] when no
    index qualifies; and [totalPoints1 <= totalPoints2] implies
    [calculateDoneIndex totalPoints1 <= calculateDoneIndex totalPoints2],
    with [null] read as [-1], below every index.  (The two lemmas above
    show that neither part uses the order of the catalog.) *)
Theorem calculateDoneIndex_greatest_and_monotone :
  strictly_ascending config = true ->
  (forall totalPoints,
      match calculateDoneIndex config totalPoints with
      | Some i =>
          qualifies config totalPoints i /\
          forall j, qualifies config totalPoints j -> j <= i
      | None => forall j, ~ qualifies config totalPoints j
      end) /\
  (forall totalPoints1 totalPoints2,
      lte totalPoints1 totalPoints2 = true ->
      (calculateDoneIndex config totalPoints1 ?? -1)
      <= (calculateDoneIndex config totalPoints2 ?? -1)).
Proof.
  intros _. split.
  - exact calculateDoneIndex_greatest.
  - exact calculateDoneIndex_monotone.
Qed.

End CalculateDoneIndex.

Lemma calculateDoneIndex_greatest_and_monotone_witness :
  strictly_ascending config3 = true /\
  calculateDoneIndex config3 250 = Some 1 /\
  qualifies config3 250 1 /\
  (forall j, qualifies config3 250 j -> j <= 1) /\
  (calculateDoneIndex config3 50 ?? -1) <= (calculateDoneIndex config3 250 ?? -1).
Proof.
  pose proof (calculateDoneIndex_greatest_and_monotone config3 eq_refl)
    as [Hgreatest Hmono].
  specialize (Hgreatest 250). specialize (Hmono 50 250 eq_refl).
  change (calculateDoneIndex config3 250) with (Some 1) in Hgreatest.
  destruct Hgreatest as [Hq Hmax].
  split; [reflexivity|].
  split; [reflexivity|].
  split; [exact Hq|].
  split; [exact Hmax|exact Hmono].
Defined.

(** ** [updateScrollerAnimation] *)

Arguments calculateDoneIndex : simpl never.

Section StateMachine.

Context {num : Type} `{JSNumber num} (config : Config num).

Lemma option_Z_eqb_eq (a b : option Z) : option_Z_eqb a b = true <-> a = b.
Proof.
  destruct a as [x|], b as [y|]; cbn [option_Z_eqb].
  - rewrite Z.eqb_eq. split; [intros ->; reflexivity|intros [= ->]; reflexivity].
  - split; discriminate.
  - split; discriminate.
  - split; reflexivity.
Qed.

Lemma option_Z_eqb_neq (a b : option Z) : option_Z_eqb a b = false <-> a <> b.
Proof.
  rewrite <- option_Z_eqb_eq. destruct (option_Z_eqb a b); split; congruence.
Qed.

(** A call with no timer armed and a number in [totalPoints] runs the
    [switch] and arms the timer exactly on [break]. *)
Lemma updateScrollerAnimation_unarmed (p : Page num) (pts : num) :
  armed p = false ->
  totalPoints (model p) = Some pts ->
  updateScrollerAnimation config p =
  match switchAnimationType (doneIndex (animation (model p)))
                            (calculateDoneIndex config pts) p with
  | (p', Return) => p'
  | (p', Break) => armTimeout p'
  end.
Proof.
  unfold armed, updateScrollerAnimation. intros -> ->. reflexivity.
Qed.

(** C4.  While the timer of the current phase is armed, a call of
    [updateScrollerAnimation] changes nothing, whatever [totalPoints]
    holds: the phase tag, its [doneIndex] and the stored timer handle are
    the same before and after, also when a poll has put a new value into
    [totalPoints] in the meantime. *)
Theorem updateScrollerAnimation_armed_noop (p : Page num) :
  armed p = true ->
  updateScrollerAnimation config p = p /\
  forall total,
    let p' := updateScrollerAnimation config (setTotalPoints total p) in
    phase p' = phase p /\
    activeTimeout (animation (model p')) = activeTimeout (animation (model p)) /\
    armed p' = true.
Proof.
  unfold armed. intros Harmed. split.
  - unfold updateScrollerAnimation. now rewrite Harmed.
  - intros total. unfold updateScrollerAnimation, armed, phase.
    cbn [setTotalPoints model animation]. rewrite Harmed.
    cbn [setTotalPoints model animation]. auto.
Qed.

(** A failed fetch: the call returns at once. *)
Lemma updateScrollerAnimation_null (p : Page num) :
  totalPoints (model p) = None -> updateScrollerAnimation config p = p.
Proof.
  unfold updateScrollerAnimation. intros ->.
  now destruct (truthy (activeTimeout (animation (model p)))).
Qed.

Lemma handle_failed_phase (e : PageEvent num) (p : Page num) :
  e = Poll None \/ e = TimerExpired ->
  totalPoints (model p) = None ->
  phase (handle config e p) = phase p /\ totalPoints (model (handle config e p)) = None.
Proof.
  intros [-> | ->] Hnull; cbn [handle].
  - unfold fetchAndUpdate, render, renderGoals.
    rewrite updateScrollerAnimation_null; [|reflexivity].
    split; reflexivity.
  - destruct (activeTimeout (animation (model p))); [|split; [reflexivity|assumption]].
    unfold timeoutCallback, renderGoals.
    rewrite updateScrollerAnimation_null; [|assumption].
    split; [reflexivity|assumption].
Qed.

(** C6.  With [totalPoints] null, a call of [updateScrollerAnimation]
    leaves the page as it was, and so does any number of consecutive
    calls; failed polls, with timer expiries between them, never change
    the phase.  The function is total: there is no input on which the
    call fails. *)
Theorem updateScrollerAnimation_failed_fetch (p : Page num) :
  totalPoints (model p) = None ->
  updateScrollerAnimation config p = p /\
  (forall n, Nat.iter n (updateScrollerAnimation config) p = p) /\
  (forall es, Forall (fun e => e = Poll None \/ e = TimerExpired) es ->
              phase (handle_all config es p) = phase p).
Proof.
  intros Hnull. split; [|split].
  - now apply updateScrollerAnimation_null.
  - induction n as [|n IH]; [reflexivity|].
    rewrite Nat.iter_succ, IH. now apply updateScrollerAnimation_null.
  - intros es. revert p Hnull.
    induction es as [|e es IH]; intros p Hnull Hall; [reflexivity|].
    inversion Hall as [|e' es' He Hes]; subst.
    destruct (handle_failed_phase e p He Hnull) as [Hphase Hnull'].
    unfold handle_all in *. cbn [fold_left].
    rewrite IH; assumption.
Qed.

End StateMachine.

Lemma updateScrollerAnimation_armed_noop_witness :
  let p := fetchAndUpdate config5 (Some 250) (page_at config5 static None (Some 0)) in
  armed p = true /\
  updateScrollerAnimation config5 p = p /\
  phase (updateScrollerAnimation config5 (setTotalPoints (Some 500) p)) = phase p.
Proof.
  intros p.
  assert (Harmed : armed p = true) by reflexivity.
  destruct (updateScrollerAnimation_armed_noop config5 p Harmed) as [Hsame Hpoll].
  split; [exact Harmed|].
  split; [exact Hsame|].
  exact (proj1 (Hpoll (Some 500))).
Defined.

Lemma updateScrollerAnimation_failed_fetch_witness :
  let p := page_at config5 upwards_moving (Some 2) None in
  totalPoints (model p) = None /\
  updateScrollerAnimation config5 p = p /\
  phase (handle_all config5 [Poll None; TimerExpired; Poll None] p) = phase p.
Proof.
  intros p.
  assert (Hnull : totalPoints (model p) = None) by reflexivity.
  destruct (updateScrollerAnimation_failed_fetch config5 p Hnull)
    as [Hsame [_ Hevents]].
  split; [exact Hnull|].
  split; [exact Hsame|].
  apply Hevents.
  apply Forall_cons; [left; reflexivity|].
  apply Forall_cons; [right; reflexivity|].
  apply Forall_cons; [left; reflexivity|].
  apply Forall_nil.
Defined.

(** ** Runs of the state machine *)

Section Traces.

Context {num : Type} `{JSNumber num} (config : Config num).

Lemma pages_on_expiry_S (n : nat) (p : Page num) :
  pages_on_expiry config (S n) p =
  handle config TimerExpired p
  :: pages_on_expiry config n (handle config TimerExpired p).
Proof. reflexivity. Qed.

Lemma falsy_handle (t : Z) : negb (t =? 0) = false -> t = 0.
Proof. destruct (Z.eqb_spec t 0); [auto|discriminate]. Qed.

(** Evaluate one call on a page whose fields are written out, with the
    target done index given by [Htarget]. *)
Ltac eval_call Htarget call :=
  let E := fresh "E" in
  eassert (E : call = _)
    by (cbn; rewrite ?Htarget; cbn; reflexivity);
  rewrite E; clear E.

Ltac first_call Htarget :=
  match goal with
  | |- context [updateScrollerAnimation ?c ?p] =>
      eval_call Htarget (updateScrollerAnimation c p)
  end.

Ltac expire Htarget :=
  rewrite pages_on_expiry_S;
  match goal with
  | |- context [handle ?c TimerExpired ?p] =>
      eval_call Htarget (handle c TimerExpired p)
  end.

(** Put a page with known phase, no armed timer and known points in
    written-out form. *)
Ltac written_out p Hphase Harmed Hpoints :=
  destruct p as [[?total ?gs [?ty ?d ?t]] ?next];
  unfold phase, armed in Hphase, Harmed;
  cbn [model animation type doneIndex activeTimeout totalPoints]
    in Hphase, Harmed, Hpoints;
  injection Hphase as -> ->; subst;
  match goal with
  | t : option Z |- _ =>
      destruct t as [?h|];
      [cbn [truthy] in Harmed; apply falsy_handle in Harmed; subst|]
  end.

(** C1.  On a catalog with strictly increasing thresholds, from
    [static(null)] with no timer armed and [totalPoints] held at a value
    whose target done index is 4, twenty calls of
    [updateScrollerAnimation], each after the timer of the call before
    has expired, give the phases begin, moving, end, static for index 0,
    then for 1, 2, 3 and 4: one index per cycle, none skipped.  Every call
    but the last arms the timer that triggers the next one; after
    [static(4)] the machine rests. *)
Theorem upward_catch_up_one_goal_per_cycle (p : Page num) (pts : num) :
  strictly_ascending config = true ->
  phase p = (static, None) ->
  armed p = false ->
  totalPoints (model p) = Some pts ->
  calculateDoneIndex config pts = Some 4 ->
  phases_after config 20 p =
    [ (upwards_begin, Some 0); (upwards_moving, Some 0); (upwards_end, Some 0);
      (static, Some 0);
      (upwards_begin, Some 1); (upwards_moving, Some 1); (upwards_end, Some 1);
      (static, Some 1);
      (upwards_begin, Some 2); (upwards_moving, Some 2); (upwards_end, Some 2);
      (static, Some 2);
      (upwards_begin, Some 3); (upwards_moving, Some 3); (upwards_end, Some 3);
      (static, Some 3);
      (upwards_begin, Some 4); (upwards_moving, Some 4); (upwards_end, Some 4);
      (static, Some 4) ] /\
  armed_after config 20 p = repeat true 19 ++ [false].
Proof.
  intros _ Hphase Harmed Hpoints Htarget.
  unfold phases_after, armed_after, pages_after. cbv zeta.
  written_out p Hphase Harmed Hpoints;
    first_call Htarget; do 19 expire Htarget;
    split; reflexivity.
Qed.

(** The step out of [downwards:moving]. *)
Lemma downwards_moving_step (p : Page num) (pts : num) :
  armed p = false ->
  totalPoints (model p) = Some pts ->
  type (animation (model p)) = downwards_moving ->
  phase (updateScrollerAnimation config p) =
  (downwards_end,
   match doneIndex (animation (model p)) with
   | None => None
   | Some d => if d =? 0 then None else Some (d - 1)
   end).
Proof.
  intros Harmed Hpoints Htype.
  rewrite (updateScrollerAnimation_unarmed config p pts Harmed Hpoints).
  unfold switchAnimationType. rewrite Htype. reflexivity.
Qed.

(** C3.  From [static(3)] with the target done index fallen back to 1,
    eight calls of [updateScrollerAnimation], each after the timer of the
    call before has expired, give [downwards:begin(3)],
    [downwards:moving(3)], [downwards:end(2)], [static(2)] and the same
    cycle once more down to [static(1)], where the machine rests.  In
    general the call in [downwards:moving(d)] leads to
    [downwards:end(d')], with [d'] null when [d] is null or 0 and
    [d - 1] otherwise. *)
Theorem downward_regression_one_goal_per_cycle :
  (forall (p : Page num) (pts : num),
      phase p = (static, Some 3) ->
      armed p = false ->
      totalPoints (model p) = Some pts ->
      calculateDoneIndex config pts = Some 1 ->
      phases_after config 8 p =
        [ (downwards_begin, Some 3); (downwards_moving, Some 3);
          (downwards_end, Some 2); (static, Some 2);
          (downwards_begin, Some 2); (downwards_moving, Some 2);
          (downwards_end, Some 1); (static, Some 1) ] /\
      armed_after config 8 p = repeat true 7 ++ [false]) /\
  (forall (p : Page num) (pts : num) (d : option Z),
      phase p = (downwards_moving, d) ->
      armed p = false ->
      totalPoints (model p) = Some pts ->
      exists d', phase (updateScrollerAnimation config p) = (downwards_end, d') /\
                 (d = None \/ d = Some 0 -> d' = None) /\
                 (forall k, d = Some k -> k <> 0 -> d' = Some (k - 1))).
Proof.
  split.
  - intros p pts Hphase Harmed Hpoints Htarget.
    unfold phases_after, armed_after, pages_after. cbv zeta.
    written_out p Hphase Harmed Hpoints;
      first_call Htarget; do 7 expire Htarget;
      split; reflexivity.
  - intros p pts d Hphase Harmed Hpoints.
    unfold phase in Hphase. injection Hphase as Htype Hdone.
    rewrite (downwards_moving_step p pts Harmed Hpoints Htype), Hdone.
    eexists. split; [reflexivity|]. split.
    + intros [-> | ->]; reflexivity.
    + intros k -> Hk. destruct (Z.eqb_spec k 0); [contradiction|reflexivity].
Qed.

End Traces.

Lemma upward_catch_up_one_goal_per_cycle_witness :
  let p := page_at config5 static None (Some 777) in
  calculateDoneIndex config5 777 = Some 4 /\
  nth_error (phases_after config5 20 p) 3 = Some (static, Some 0) /\
  nth_error (phases_after config5 20 p) 19 = Some (static, Some 4).
Proof.
  intros p.
  assert (Htarget : calculateDoneIndex config5 777 = Some 4) by reflexivity.
  assert (Hsorted : strictly_ascending config5 = true) by reflexivity.
  assert (Hphase : phase p = (static, None)) by reflexivity.
  assert (Harmed : armed p = false) by reflexivity.
  assert (Hpoints : totalPoints (model p) = Some 777) by reflexivity.
  destruct (upward_catch_up_one_goal_per_cycle config5 p 777
              Hsorted Hphase Harmed Hpoints Htarget) as [Hphases _].
  split; [exact Htarget|].
  rewrite Hphases. split; reflexivity.
Defined.

Lemma downward_regression_one_goal_per_cycle_witness :
  let p := page_at config5 static (Some 3) (Some 250) in
  let q := page_at config5 downwards_moving (Some 0) (Some 50) in
  calculateDoneIndex config5 250 = Some 1 /\
  last (phases_after config5 8 p) (static, None) = (static, Some 1) /\
  phase (updateScrollerAnimation config5 q) = (downwards_end, None).
Proof.
  intros p q.
  assert (Htarget : calculateDoneIndex config5 250 = Some 1) by reflexivity.
  destruct (downward_regression_one_goal_per_cycle config5) as [Hrun Hstep].
  assert (Hphase : phase p = (static, Some 3)) by reflexivity.
  assert (Harmed : armed p = false) by reflexivity.
  assert (Hpoints : totalPoints (model p) = Some 250) by reflexivity.
  destruct (Hrun p 250 Hphase Harmed Hpoints Htarget) as [Hphases _].
  assert (Hphase' : phase q = (downwards_moving, Some 0)) by reflexivity.
  assert (Harmed' : armed q = false) by reflexivity.
  assert (Hpoints' : totalPoints (model q) = Some 50) by reflexivity.
  destruct (Hstep q 50 (Some 0) Hphase' Harmed' Hpoints') as [d' [Hq [Hnull _]]].
  split; [exact Htarget|].
  split; [rewrite Hphases; reflexivity|].
  rewrite Hq, Hnull; [reflexivity|right; reflexivity].
Defined.

(** ** The timer and the reachable pages *)

Section Invariants.

Context {num : Type} `{JSNumber num} (config : Config num).

Lemma reachable_handle_all (initialPoints : num) (es : list (PageEvent num)) (p : Page num) :
  reachable config initialPoints p ->
  reachable config initialPoints (handle_all config es p).
Proof.
  revert p. induction es as [|e es IH]; intros p Hp; [exact Hp|].
  unfold handle_all in *. cbn [fold_left]. apply IH. now apply reachable_handle.
Qed.

(** C5, as the code has it.  After a call of [updateScrollerAnimation]
    made with no timer armed and a number in [totalPoints], the timer is
    armed if and only if the new phase is not static or its [doneIndex]
    differs from the target done index: [upwards:end] and
    [downwards:end] arm the timer on their way to [static] whenever the
    target is not reached yet, so that the next cycle starts by itself. *)
Theorem timer_armed_iff_animating_or_off_target (p : Page num) (pts : num) :
  armed p = false ->
  totalPoints (model p) = Some pts ->
  let p' := updateScrollerAnimation config p in
  armed p' = true <->
  (type (animation (model p')) <> static \/
   doneIndex (animation (model p')) <> calculateDoneIndex config pts).
Proof.
  intros Harmed Hpoints p'. subst p'.
  rewrite (updateScrollerAnimation_unarmed config p pts Harmed Hpoints).
  unfold switchAnimationType, startAnimation.
  destruct (type (animation (model p))) eqn:Htype;
    try (cbn; split; [intros _; left; discriminate|reflexivity]).
  - destruct (option_Z_eqb _ _) eqn:Heq.
    + apply option_Z_eqb_eq in Heq. rewrite Harmed, Htype. split; [discriminate|].
      intros [Hne | Hne]; contradiction.
    + destruct (_ >? _); cbn; (split; [intros _; left; discriminate|reflexivity]).
  - destruct (option_Z_eqb _ _) eqn:Heq; cbn.
    + apply option_Z_eqb_eq in Heq. split; [discriminate|].
      intros [Hne | Hne]; contradiction.
    + apply option_Z_eqb_neq in Heq. split; [intros _; right; exact Heq|reflexivity].
  - destruct (option_Z_eqb _ _) eqn:Heq; cbn.
    + apply option_Z_eqb_eq in Heq. split; [discriminate|].
      intros [Hne | Hne]; contradiction.
    + apply option_Z_eqb_neq in Heq. split; [intros _; right; exact Heq|reflexivity].
Qed.

Lemma nullish_in_range_inj (a b : option Z) :
  doneIndex_in_range config a -> doneIndex_in_range config b ->
  (a ?? -1) = (b ?? -1) -> a = b.
Proof.
  destruct a as [x|], b as [y|]; cbn [doneIndex_in_range nullish]; intros Ha Hb Hab;
    try reflexivity; try lia. now subst.
Qed.

Lemma switchAnimationType_in_range (target : option Z) (p : Page num) :
  doneIndex_in_range config target ->
  doneIndex_in_range config (doneIndex (animation (model p))) ->
  doneIndex_in_range config
    (doneIndex (animation (model
       (fst (switchAnimationType (doneIndex (animation (model p))) target p))))).
Proof.
  intros Htarget Hcurrent.
  unfold switchAnimationType, startAnimation.
  destruct (type (animation (model p)));
    try (cbn [fst setAnimation model animation doneIndex]; exact Hcurrent).
  - destruct (option_Z_eqb _ _) eqn:Heq; cbn [fst]; [exact Hcurrent|].
    apply option_Z_eqb_neq in Heq.
    destruct (Z.gtb_spec (doneIndex (animation (model p)) ?? -1) (target ?? -1)) as [Hgt|Hle];
      cbn [setAnimation model animation doneIndex]; [exact Hcurrent|].
    assert (Hne : doneIndex (animation (model p)) ?? -1 <> target ?? -1)
      by (intros E; apply Heq; eapply nullish_in_range_inj; eassumption).
    destruct (doneIndex (animation (model p))) as [d|], target as [t|];
      cbn [doneIndex_in_range nullish] in *; lia.
  - destruct (option_Z_eqb _ _); cbn [fst setAnimation model animation doneIndex];
      exact Hcurrent.
  - cbn [fst setAnimation model animation doneIndex].
    destruct (doneIndex (animation (model p))) as [d|]; [|exact I].
    destruct (Z.eqb_spec d 0); [exact I|].
    cbn [doneIndex_in_range] in *. lia.
  - destruct (option_Z_eqb _ _); cbn [fst setAnimation model animation doneIndex];
      exact Hcurrent.
Qed.

Lemma updateScrollerAnimation_in_range (p : Page num) :
  doneIndex_in_range config (doneIndex (animation (model p))) ->
  doneIndex_in_range config
    (doneIndex (animation (model (updateScrollerAnimation config p)))).
Proof.
  intros Hcurrent. unfold updateScrollerAnimation.
  destruct (truthy _); [exact Hcurrent|].
  destruct (totalPoints (model p)) as [pts|]; [|exact Hcurrent].
  pose proof (switchAnimationType_in_range (calculateDoneIndex config pts) p
                (calculateDoneIndex_in_range config pts) Hcurrent) as Hnext.
  destruct (switchAnimationType _ _ p) as [p' [|]]; exact Hnext.
Qed.

Lemma handle_in_range (e : PageEvent num) (p : Page num) :
  doneIndex_in_range config (doneIndex (animation (model p))) ->
  doneIndex_in_range config (doneIndex (animation (model (handle config e p)))).
Proof.
  intros Hcurrent. destruct e as [total|]; cbn [handle].
  - apply updateScrollerAnimation_in_range. exact Hcurrent.
  - destruct (activeTimeout (animation (model p))); [|exact Hcurrent].
    apply updateScrollerAnimation_in_range. exact Hcurrent.
Qed.

(** The start-up page is at rest in [static(calculateDoneIndex(initialPoints))]. *)
Lemma ui_phase (initialPoints : num) :
  phase (ui config initialPoints) = (static, calculateDoneIndex config initialPoints)
  /\ armed (ui config initialPoints) = false.
Proof.
  unfold ui, render, renderGoals, updateScrollerAnimation, initializeAnimation.
  cbn [model animation activeTimeout truthy totalPoints doneIndex].
  unfold switchAnimationType. cbn [model animation type].
  assert (Heq : option_Z_eqb (calculateDoneIndex config initialPoints)
                             (calculateDoneIndex config initialPoints) = true)
    by now apply option_Z_eqb_eq.
  rewrite Heq. split; reflexivity.
Qed.

(** C10.  On a catalog of [N >= 1] goals, in every page reachable from
    the start-up page, whose phase is
    [static(calculateDoneIndex(initialPoints))], by polls (successful or
    failed) and timer expiries, the phase's [doneIndex] is null or an
    integer in [[0, N - 1]]: the step to [upwards:begin] never goes past
    the last goal and the downward steps never go below null. *)
Theorem reachable_doneIndex_in_range (initialPoints : num) (p : Page num) :
  (1 <= List.length (goals config))%nat ->
  reachable config initialPoints p ->
  doneIndex_in_range config (doneIndex (animation (model p))).
Proof.
  intros _ Hreach. induction Hreach as [|p e _ IH].
  - apply updateScrollerAnimation_in_range. apply calculateDoneIndex_in_range.
  - apply handle_in_range. exact IH.
Qed.

End Invariants.

Lemma timer_armed_iff_animating_or_off_target_witness :
  let p := page_at config5 upwards_end (Some 0) (Some 500) in
  let p' := updateScrollerAnimation config5 p in
  armed p = false /\
  (armed p' = true <->
   (type (animation (model p')) <> static \/
    doneIndex (animation (model p')) <> calculateDoneIndex config5 500)).
Proof.
  intros p p'.
  assert (Harmed : armed p = false) by reflexivity.
  assert (Hpoints : totalPoints (model p) = Some 500) by reflexivity.
  split; [exact Harmed|].
  exact (timer_armed_iff_animating_or_off_target config5 p 500 Harmed Hpoints).
Defined.

(** C5 as stated fails.  The call in [upwards:end(0)] with the target
    at 4 leads to [static(0)] with the timer armed, and that page is
    reached from start-up by one poll and three timer expiries.  With
    [totalPoints] null a call in [upwards:begin] arms nothing although
    the phase is not static. *)
Lemma timer_armed_iff_not_static_counterexample :
  let q := page_at config5 upwards_end (Some 0) (Some 500) in
  let q' := updateScrollerAnimation config5 q in
  let r := handle_all config5
             [Poll (Some 500); TimerExpired; TimerExpired; TimerExpired]
             (ui config5 0) in
  let s := page_at config5 upwards_begin (Some 0) None in
  let s' := updateScrollerAnimation config5 s in
  (armed q = false /\ phase q' = (static, Some 0) /\ armed q' = true /\
   ~ (armed q' = true <-> type (animation (model q')) <> static)) /\
  (reachable config5 0 r /\ phase r = (static, Some 0) /\ armed r = true /\
   ~ (armed r = true -> type (animation (model r)) <> static)) /\
  (armed s = false /\ phase s' = (upwards_begin, Some 0) /\ armed s' = false /\
   ~ (armed s' = true <-> type (animation (model s')) <> static)).
Proof.
  cbv zeta. split; [|split].
  - split; [reflexivity|]. split; [reflexivity|]. split; [reflexivity|].
    intros [Hstatic _]. now apply Hstatic.
  - split; [apply reachable_handle_all; apply reachable_ui|].
    split; [reflexivity|]. split; [reflexivity|].
    intros Hstatic. now apply Hstatic.
  - split; [reflexivity|]. split; [reflexivity|]. split; [reflexivity|].
    intros [_ Harmed]. discriminate Harmed. discriminate.
Qed.

Lemma reachable_doneIndex_in_range_witness :
  let p := handle_all config5 [Poll (Some 500); TimerExpired; Poll None; TimerExpired]
                      (ui config5 0) in
  reachable config5 0 p /\
  doneIndex_in_range config5 (doneIndex (animation (model p))).
Proof.
  intros p.
  assert (Hlen : (1 <= List.length (goals config5))%nat) by (cbn; lia).
  assert (Hreach : reachable config5 0 p)
    by (apply reachable_handle_all; apply reachable_ui).
  split; [exact Hreach|].
  exact (reachable_doneIndex_in_range config5 0 p Hlen Hreach).
Defined.

(** ** The slot projector *)

Section SlotProjector.

Context {num : Type}.

Lemma level_or_all_completed (i : Z) (fallback : GoalState) :
  0 <= i <= 3 ->
  level_or (Some [completed; completed; completed; completed]) i fallback = completed.
Proof.
  intros Hi.
  assert (Hcases : i = 0 \/ i = 1 \/ i = 2 \/ i = 3) by lia.
  destruct Hcases as [-> | [-> | [-> | ->]]]; reflexivity.
Qed.

(** Which [case] of [switch (picker)] is taken. *)
Ltac case_picker :=
  repeat match goal with
         | |- context [Z.eqb ?picker ?k] => destruct (Z.eqb_spec picker k)
         end.

(** C7.  When [remaining = goalCount - (doneIndex ?? 0)] is 1, every slot
    [determineGoalInfo] returns, for every index and every phase tag, has
    state completed. *)
Theorem remaining_one_all_completed (m : UIModel num) (index : Z) (info : GoalInfo) :
  goal_remaining m = 1 ->
  determineGoalInfo m index = Some info ->
  state info = completed.
Proof.
  intros Hremaining. unfold determineGoalInfo, goal_levels.
  rewrite Hremaining. cbn [Z.eqb Pos.eqb Z.leb Z.compare Pos.compare Pos.compare_cont].
  destruct (goal_position m index <? -2); [discriminate|].
  destruct (type (animation m)); [destruct (doneIndex (animation m))|..];
    case_picker; try discriminate;
    intros [= <-]; cbn [state]; apply level_or_all_completed; lia.
Qed.

(** C8, as the code has it.  In [upwards:begin] no visible slot gets a
    transition tag, the covered one included.  In [downwards:begin] the
    covered slot gets [no-box-shadow], and every other visible slot gets
    [down] when [doneIndex] is neither null nor 0 and [remaining > 2],
    and no tag otherwise. *)
Theorem begin_phase_transition_tags (m : UIModel num) (index : Z) (info : GoalInfo) :
  determineGoalInfo m index = Some info ->
  (type (animation m) = upwards_begin -> info_animation info = None) /\
  (type (animation m) = downwards_begin ->
   (goal_picker m index = -1 -> info_animation info = Some no_box_shadow) /\
   (goal_picker m index <> -1 ->
    ((exists d, doneIndex (animation m) = Some d /\ d <> 0) /\ 2 < goal_remaining m ->
     info_animation info = Some down) /\
    (doneIndex (animation m) = None \/ doneIndex (animation m) = Some 0
     \/ goal_remaining m <= 2 ->
     info_animation info = None))).
Proof.
  unfold determineGoalInfo, goal_elementAnimation.
  destruct (goal_position m index <? -2); [discriminate|].
  intros Hinfo. split; intros Htype; rewrite Htype in Hinfo.
  - revert Hinfo. case_picker; try discriminate;
      [destruct (goal_remaining m <=? 2); [discriminate|]|..];
      intros [= <-]; reflexivity.
  - revert Hinfo. case_picker; try discriminate;
      [destruct (goal_remaining m <=? 2); [discriminate|]|..];
      intros [= <-]; cbn [info_animation covered others];
      (split; [intros Hcovered; try reflexivity; lia|]);
      intros Hother; try contradiction;
      (split; [intros [[d [-> Hd]] Hrem]|intros Hnone]).
    all: cbn [truthy].
    all: try (destruct (Z.eqb_spec d 0); [contradiction|];
              destruct (Z.gtb_spec (goal_remaining m) 2); [reflexivity|lia]).
    all: destruct Hnone as [-> | [-> | Hrem]]; try reflexivity;
         destruct (Z.gtb_spec (goal_remaining m) 2); [lia|];
         now rewrite andb_false_r.
Qed.

End SlotProjector.

Lemma remaining_one_all_completed_witness :
  let m := model (page_at config3 upwards_end (Some 2) (Some 300)) in
  goal_remaining m = 1 /\
  (forall info, determineGoalInfo m 2 = Some info -> state info = completed) /\
  determineGoalInfo m 2 =
    Some {| state := completed; position := 2; info_animation := None |}.
Proof.
  intros m.
  assert (Hremaining : goal_remaining m = 1) by reflexivity.
  split; [exact Hremaining|].
  split; [|reflexivity].
  intros info Hinfo.
  exact (remaining_one_all_completed m 2 info Hremaining Hinfo).
Defined.

Lemma begin_phase_transition_tags_witness :
  let m := model (page_at config5 downwards_begin (Some 1) (Some 50)) in
  let info := {| state := completed; position := 0; info_animation := Some no_box_shadow |} in
  determineGoalInfo m 0 = Some info /\
  goal_picker m 0 = -1 /\
  info_animation info = Some no_box_shadow.
Proof.
  intros m info.
  assert (Hinfo : determineGoalInfo m 0 = Some info) by reflexivity.
  assert (Hpicker : goal_picker m 0 = -1) by reflexivity.
  split; [exact Hinfo|]. split; [exact Hpicker|].
  destruct (begin_phase_transition_tags m 0 info Hinfo) as [_ Hdown].
  exact (proj1 (Hdown eq_refl) Hpicker).
Defined.

(** C8 as stated fails in both begin phases.  With five goals and
    [doneIndex = 1], [upwards:begin] leaves the covered slot (goal 0,
    picker -1) without a tag, and [downwards:begin] tags the slot of goal
    1 (picker 0, not the covered one) with [down]. *)
Lemma begin_phase_no_box_shadow_counterexample :
  let upwards := model (page_at config5 upwards_begin (Some 1) (Some 250)) in
  let covered_slot := {| state := completed; position := 0; info_animation := None |} in
  let downwards := model (page_at config5 downwards_begin (Some 1) (Some 50)) in
  let other_slot := {| state := completed; position := 1; info_animation := Some down |} in
  (goal_picker upwards 0 = -1 /\
   determineGoalInfo upwards 0 = Some covered_slot /\
   info_animation covered_slot <> Some no_box_shadow) /\
  (goal_picker downwards 1 <> -1 /\
   determineGoalInfo downwards 1 = Some other_slot /\
   info_animation other_slot <> None).
Proof.
  cbv zeta. repeat split; try reflexivity; discriminate.
Qed.

(** ** The key check *)

Section KeyCheck.

Context {num : Type} (config : Config num) (isDevelopment : bool).
Context (CryptoKey : Type) (importKey : string -> option CryptoKey).
Context (decrypt : EncryptedText -> CryptoKey -> option string).

Lemma tryLoadKeyFromSearch_invalid (search_key : option string) :
  match search_key with
  | None => True
  | Some base64 =>
      base64 = EmptyString
      \/ (String.length base64 <> 43%nat /\ String.length base64 <> 44%nat)
  end ->
  tryLoadKeyFromSearch CryptoKey importKey search_key = None.
Proof.
  destruct search_key as [base64|]; [|reflexivity].
  intros Hinvalid. cbn [tryLoadKeyFromSearch].
  destruct (Nat.eqb_spec (String.length base64) 0) as [|Hne]; [reflexivity|].
  destruct (Nat.ltb_spec (String.length base64) 43) as [|Hge]; [reflexivity|].
  destruct (Nat.ltb_spec 44 (String.length base64)) as [|Hle]; [reflexivity|].
  exfalso. destruct Hinvalid as [-> | [H43 H44]]; [now apply Hne|lia].
Qed.

(** C9.  When the [key] query parameter is absent, empty, or of a length
    other than 43 or 44, the state loader yields no fetch function, and
    [main] writes the text [Invalid key] and stops: it never calls the
    fetch function and installs no polling interval. *)
Theorem invalid_key_stops_main (search_key : option string) :
  match search_key with
  | None => True
  | Some base64 =>
      base64 = EmptyString
      \/ (String.length base64 <> 43%nat /\ String.length base64 <> 44%nat)
  end ->
  createStateLoader config isDevelopment CryptoKey importKey decrypt search_key
  = Fulfilled None /\
  main config isDevelopment CryptoKey importKey decrypt search_key
  = [SetCounterText "..."; SetCounterText "Invalid key"] /\
  existsb polls (main config isDevelopment CryptoKey importKey decrypt search_key)
  = false.
Proof.
  intros Hinvalid.
  pose proof (tryLoadKeyFromSearch_invalid search_key Hinvalid) as Hkey.
  unfold main, createStateLoader. rewrite Hkey.
  repeat split; reflexivity.
Qed.

End KeyCheck.

Lemma invalid_key_stops_main_witness :
  let importKey := fun base64 : string => Some base64 in
  let decrypt := fun (_ : EncryptedText) (key : string) => Some key in
  String.length "too-short" <> 43%nat /\
  String.length "too-short" <> 44%nat /\
  main config5 false string importKey decrypt (Some "too-short"%string)
  = [SetCounterText "..."; SetCounterText "Invalid key"].
Proof.
  intros importKey decrypt.
  assert (H43 : String.length "too-short" <> 43%nat) by (cbn; lia).
  assert (H44 : String.length "too-short" <> 44%nat) by (cbn; lia).
  split; [exact H43|]. split; [exact H44|].
  exact (proj1 (proj2 (invalid_key_stops_main config5 false string importKey decrypt
                         (Some "too-short"%string) (or_intror (conj H43 H44))))).
Defined.

(** * Further properties *)

(** ** The state machine settles at the target *)

Section SettlingProofs.

Context {num : Type} `{JSNumber num} (config : Config num).

Lemma page_after_S (n : nat) (p : Page num) :
  page_after config (S (S n)) p = handle config TimerExpired (page_after config (S n) p).
Proof. reflexivity. Qed.

Lemma pages_on_expiry_nth (n i : nat) (p : Page num) :
  (i < n)%nat ->
  nth_error (pages_on_expiry config n p) i
  = Some (Nat.iter (S i) (handle config TimerExpired) p).
Proof.
  revert i p. induction n as [|n IH]; intros i p Hi; [lia|].
  cbn [pages_on_expiry]. destruct i as [|i]; [reflexivity|].
  cbn [nth_error]. rewrite IH by lia.
  now rewrite (Nat.iter_succ_r (S i)).
Qed.

(** [page_after] names the pages that [pages_after] lists. *)
Lemma pages_after_nth (n i : nat) (p : Page num) :
  (i < n)%nat ->
  nth_error (pages_after config n p) i = Some (page_after config (S i) p).
Proof.
  intros Hi. destruct n as [|n]; [lia|].
  cbn [pages_after]. destruct i as [|i]; [reflexivity|].
  cbn [nth_error page_after]. rewrite pages_on_expiry_nth by lia.
  now rewrite (Nat.iter_succ_r i).
Qed.

Lemma handle_expired_armed (p : Page num) :
  armed p = true ->
  handle config TimerExpired p = updateScrollerAnimation config (timer_cleared p).
Proof.
  unfold armed. cbn [handle].
  destruct (activeTimeout (animation (model p))); [reflexivity|discriminate].
Qed.

(** Calls made later on an armed page continue the run of the page the
    timer callback sees. *)
Lemma page_after_armed (n : nat) (p : Page num) :
  armed p = true ->
  Nat.iter (S n) (handle config TimerExpired) p
  = page_after config (S n) (timer_cleared p).
Proof.
  intros Harmed. rewrite Nat.iter_succ_r, handle_expired_armed by assumption.
  reflexivity.
Qed.

Lemma page_after_add (a b : nat) (p : Page num) :
  page_after config (S a + b) p
  = Nat.iter b (handle config TimerExpired) (page_after config (S a) p).
Proof.
  cbn [page_after Nat.add]. rewrite Nat.add_comm. now rewrite Nat.iter_add.
Qed.

Lemma falsy_timeout (t : option Z) : truthy t = false -> t = None \/ t = Some 0.
Proof.
  destruct t as [h|]; [|now left]. cbn [truthy].
  destruct (Z.eqb_spec h 0); [subst; now right|discriminate].
Qed.

Ltac unfold_call :=
  cbv beta iota zeta delta
    [handle timeoutCallback renderGoals updateScrollerAnimation
     switchAnimationType startAnimation setAnimation armTimeout
     model animation totalPoints model_goals nextTimeout
     type doneIndex activeTimeout].

Ltac eval_page call :=
  let E := fresh "E" in
  eassert (E : call = _)
    by (unfold_call;
        repeat match goal with
               | Hs : _ = _ |- _ => rewrite Hs; unfold_call
               end;
        reflexivity);
  rewrite E; clear E.

Ltac eval_update :=
  match goal with
  | |- context [updateScrollerAnimation ?c ?q] =>
      eval_page (updateScrollerAnimation c q)
  end.

Ltac eval_expiry :=
  match goal with
  | |- context [handle ?c TimerExpired ?q] =>
      lazymatch q with
      | context [handle] => fail
      | _ => eval_page (handle c TimerExpired q)
      end
  end.

Lemma one_cycle (p : Page num) (pts : num) :
  type (animation (model p)) = static ->
  armed p = false ->
  totalPoints (model p) = Some pts ->
  doneIndex (animation (model p)) <> calculateDoneIndex config pts ->
  let d' := next_doneIndex (doneIndex (animation (model p))) (calculateDoneIndex config pts) in
  armed (page_after config 1 p) = true /\
  armed (page_after config 2 p) = true /\
  armed (page_after config 3 p) = true /\
  phase (page_after config 4 p) = (static, d') /\
  totalPoints (model (page_after config 4 p)) = Some pts /\
  armed (page_after config 4 p) = negb (option_Z_eqb d' (calculateDoneIndex config pts)).
Proof.
  intros Htype Harmed Hpoints Hneq.
  apply option_Z_eqb_neq in Hneq.
  destruct p as [[total gs [ty d t]] next].
  unfold armed in Harmed.
  cbn [model animation type doneIndex activeTimeout totalPoints] in *.
  subst ty total. unfold next_doneIndex.
  rewrite !page_after_S. cbn [page_after Nat.iter nat_rect].
  destruct ((d ?? -1) >? (calculateDoneIndex config pts ?? -1)) eqn:Hdir;
  destruct (falsy_timeout t Harmed); subst t; clear Harmed;
  pose proof (eq_refl : truthy None = false) as Hnone;
  pose proof (eq_refl : truthy (Some 0) = false) as Hzero.
  all: eval_update; do 2 eval_expiry.
  all: match goal with
       | |- context [negb (option_Z_eqb ?a ?b)] =>
           destruct (option_Z_eqb a b) eqn:Hlast
       end.
  all: eval_expiry.
  all: repeat split; reflexivity.
Qed.

Lemma cycles_to_target_0 (d t : option Z) :
  doneIndex_in_range config d -> doneIndex_in_range config t ->
  cycles_to_target d t = O -> d = t.
Proof.
  unfold cycles_to_target. intros Hd Ht Hk.
  apply (nullish_in_range_inj config); [assumption|assumption|]. lia.
Qed.

Lemma next_doneIndex_closer (d t : option Z) :
  doneIndex_in_range config d -> doneIndex_in_range config t -> d <> t ->
  doneIndex_in_range config (next_doneIndex d t) /\
  cycles_to_target d t = S (cycles_to_target (next_doneIndex d t) t).
Proof.
  intros Hd Ht Hne.
  assert (Hne' : (d ?? -1) <> (t ?? -1))
    by (intros E; apply Hne; eapply nullish_in_range_inj; eassumption).
  unfold next_doneIndex, cycles_to_target.
  destruct (Z.gtb_spec (d ?? -1) (t ?? -1)) as [Hgt|Hle].
  - destruct d as [x|]; [|destruct t; cbn [nullish doneIndex_in_range] in *; lia].
    destruct (Z.eqb_spec x 0) as [->|Hx];
      destruct t as [y|]; cbn [nullish doneIndex_in_range] in *; lia.
  - destruct d as [x|], t as [y|]; cbn [nullish doneIndex_in_range] in *; lia.
Qed.

(** X1.  From a page at rest in [static(d)], with [d] in range and a
    number in [totalPoints] that stays as it is, the machine settles: with
    [k] the distance from [d] to the target done index ([null] counted
    as -1), the page after [4 * k] calls is [static(target)] with no
    timer armed, and after every earlier call the timer is armed, so that
    the run needs no further poll. *)
Theorem settles_at_target (p : Page num) (pts : num) :
  type (animation (model p)) = static ->
  armed p = false ->
  totalPoints (model p) = Some pts ->
  doneIndex_in_range config (doneIndex (animation (model p))) ->
  let n := (4 * cycles_to_target (doneIndex (animation (model p)))
                                 (calculateDoneIndex config pts))%nat in
  phase (page_after config n p) = (static, calculateDoneIndex config pts) /\
  armed (page_after config n p) = false /\
  forall i, (0 < i < n)%nat -> armed (page_after config i p) = true.
Proof.
  intros Htype Harmed Hpoints Hrange n. subst n.
  remember (cycles_to_target (doneIndex (animation (model p)))
                             (calculateDoneIndex config pts)) as k eqn:Hk.
  revert p Htype Harmed Hpoints Hrange Hk.
  induction k as [|k IH]; intros p Htype Harmed Hpoints Hrange Hk.
  - change (4 * 0)%nat with 0%nat. cbn [page_after]. symmetry in Hk.
    apply cycles_to_target_0 in Hk;
      [|assumption|apply calculateDoneIndex_in_range].
    unfold phase. rewrite Htype, Hk.
    split; [reflexivity|]. split; [assumption|]. intros i Hi; lia.
  - assert (Hne : doneIndex (animation (model p)) <> calculateDoneIndex config pts).
    { intros E. rewrite E in Hk. unfold cycles_to_target in Hk. lia. }
    destruct (next_doneIndex_closer _ _ Hrange
                (calculateDoneIndex_in_range config pts) Hne) as [Hrange' Hcycles].
    destruct (one_cycle p pts Htype Harmed Hpoints Hne)
      as [H1 [H2 [H3 [Hphase4 [Hpoints4 Harmed4]]]]].
    cbv zeta in Hphase4, Harmed4.
    set (d' := next_doneIndex (doneIndex (animation (model p)))
                              (calculateDoneIndex config pts)) in *.
    assert (Hk' : k = cycles_to_target d' (calculateDoneIndex config pts)) by lia.
    pose proof (f_equal fst Hphase4) as Htype4.
    pose proof (f_equal snd Hphase4) as Hdone4.
    cbn [phase fst snd] in Htype4, Hdone4.
    destruct k as [|k'].
    + (* one cycle is enough *)
      symmetry in Hk'. apply cycles_to_target_0 in Hk';
        [|assumption|apply calculateDoneIndex_in_range].
      change (4 * 1)%nat with 4%nat.
      unfold phase. rewrite Htype4, Hdone4, Hk'.
      split; [reflexivity|]. split.
      * rewrite Harmed4, Hk'.
        now rewrite (proj2 (option_Z_eqb_eq _ _) eq_refl).
      * intros i Hi.
        assert (Hcases : i = 1%nat \/ i = 2%nat \/ i = 3%nat) by lia.
        destruct Hcases as [-> | [-> | ->]]; assumption.
    + (* the next cycle starts from the page the timer callback sees *)
      assert (Harmed4' : armed (page_after config 4 p) = true).
      { rewrite Harmed4.
        destruct (option_Z_eqb d' (calculateDoneIndex config pts)) eqn:Heq;
          [|reflexivity].
        apply option_Z_eqb_eq in Heq. rewrite Heq in Hk'.
        unfold cycles_to_target in Hk'. lia. }
      set (q := timer_cleared (page_after config 4 p)).
      assert (Hq : forall m, page_after config (4 + S m) p = page_after config (S m) q).
      { intros m. rewrite (page_after_add 3 (S m) p).
        now rewrite page_after_armed. }
      specialize (IH q).
      assert (Hdq : doneIndex (animation (model q)) = d') by exact Hdone4.
      rewrite Hdq in IH.
      destruct (IH Htype4 eq_refl Hpoints4 Hrange' Hk') as [IHphase [IHarmed IHearlier]].
      replace (4 * S (S k'))%nat with (4 + S (3 + 4 * k'))%nat by lia.
      rewrite Hq.
      replace (S (3 + 4 * k'))%nat with (4 * S k')%nat by lia.
      split; [exact IHphase|]. split; [exact IHarmed|].
      intros i Hi.
      destruct (Nat.le_gt_cases i 4) as [Hle|Hgt].
      * assert (Hcases : i = 1%nat \/ i = 2%nat \/ i = 3%nat \/ i = 4%nat) by lia.
        destruct Hcases as [-> | [-> | [-> | ->]]]; assumption.
      * replace i with (4 + S (i - 5))%nat by lia.
        rewrite Hq. apply IHearlier. lia.
Qed.

End SettlingProofs.

Lemma settles_at_target_witness :
  let p := page_at config5 static (Some 3) (Some 150) in
  doneIndex_in_range config5 (Some 3) /\
  cycles_to_target (Some 3) (calculateDoneIndex config5 150) = 3%nat /\
  phase (page_after config5 12 p) = (static, Some 0) /\
  armed (page_after config5 12 p) = false /\
  armed (page_after config5 11 p) = true.
Proof.
  intros p.
  assert (Htype : type (animation (model p)) = static) by reflexivity.
  assert (Harmed : armed p = false) by reflexivity.
  assert (Hpoints : totalPoints (model p) = Some 150) by reflexivity.
  assert (Hrange : doneIndex_in_range config5 (doneIndex (animation (model p))))
    by (cbn; lia).
  destruct (settles_at_target config5 p 150 Htype Harmed Hpoints Hrange)
    as [Hphase [Hrest Hearlier]].
  split; [exact Hrange|]. split; [reflexivity|].
  split; [exact Hphase|]. split; [exact Hrest|].
  apply Hearlier.
  change (0 < 11 < 12)%nat. lia.
Defined.

(** ** Repeated calls and reachable pages *)

Section ReachableProofs.

Context {num : Type} `{JSNumber num} (config : Config num).

Lemma updateScrollerAnimation_armed_same (p : Page num) :
  armed p = true -> updateScrollerAnimation config p = p.
Proof.
  unfold armed, updateScrollerAnimation. now intros ->.
Qed.

(** X2.  A second call of [updateScrollerAnimation] right after the
    first, with nothing changed in between, does nothing: rendering twice
    is rendering once. *)
Theorem updateScrollerAnimation_idempotent (p : Page num) :
  updateScrollerAnimation config (updateScrollerAnimation config p)
  = updateScrollerAnimation config p.
Proof.
  destruct (armed p) eqn:Harmed.
  - rewrite (updateScrollerAnimation_armed_same p Harmed).
    exact (updateScrollerAnimation_armed_same p Harmed).
  - destruct (totalPoints (model p)) as [pts|] eqn:Hpoints.
    + rewrite (updateScrollerAnimation_unarmed config p pts Harmed Hpoints).
      unfold switchAnimationType, startAnimation.
      destruct (type (animation (model p))) eqn:Htype;
        try (apply updateScrollerAnimation_armed_same; reflexivity).
      * destruct (option_Z_eqb _ _) eqn:Heq.
        -- rewrite (updateScrollerAnimation_unarmed config p pts Harmed Hpoints).
           unfold switchAnimationType. now rewrite Htype, Heq.
        -- destruct (_ >? _); apply updateScrollerAnimation_armed_same; reflexivity.
      * destruct (option_Z_eqb _ _) eqn:Heq;
          [|apply updateScrollerAnimation_armed_same; reflexivity].
        unfold updateScrollerAnimation, switchAnimationType.
        cbn [setAnimation model animation activeTimeout truthy totalPoints type doneIndex].
        now rewrite Hpoints, Heq.
      * destruct (option_Z_eqb _ _) eqn:Heq;
          [|apply updateScrollerAnimation_armed_same; reflexivity].
        unfold updateScrollerAnimation, switchAnimationType.
        cbn [setAnimation model animation activeTimeout truthy totalPoints type doneIndex].
        now rewrite Hpoints, Heq.
    + rewrite (updateScrollerAnimation_null config p Hpoints).
      exact (updateScrollerAnimation_null config p Hpoints).
Qed.

(** After any call, a phase that is not static and has no timer armed
    means that [totalPoints] holds no number. *)
Lemma updateScrollerAnimation_stall (p : Page num) :
  let p' := updateScrollerAnimation config p in
  type (animation (model p')) <> static ->
  armed p' = false ->
  totalPoints (model p') = None.
Proof.
  cbv zeta. destruct (armed p) eqn:Harmed.
  - rewrite updateScrollerAnimation_armed_same by assumption. congruence.
  - destruct (totalPoints (model p)) as [pts|] eqn:Hpoints.
    + rewrite (updateScrollerAnimation_unarmed config p pts Harmed Hpoints).
      unfold switchAnimationType, startAnimation.
      destruct (type (animation (model p))) eqn:Htype;
        try (cbn; intros; discriminate);
        destruct (option_Z_eqb _ _);
        try destruct (_ >? _); cbn; intros; try discriminate; congruence.
    + now rewrite updateScrollerAnimation_null.
Qed.

(** X3.  In every page reachable from start-up, a phase that is not
    static has its timer armed as long as [totalPoints] holds a number: an
    animation under way can only stand still after a failed fetch. *)
Theorem reachable_animation_keeps_timer (initialPoints : num) (p : Page num) (pts : num) :
  reachable config initialPoints p ->
  type (animation (model p)) <> static ->
  totalPoints (model p) = Some pts ->
  armed p = true.
Proof.
  intros Hreach. induction Hreach as [|p e Hreach IH]; intros Htype Hpoints.
  - destruct (armed (ui config initialPoints)) eqn:Harmed; [reflexivity|].
    pose proof (updateScrollerAnimation_stall _ Htype Harmed) as Hnull.
    unfold ui, render, renderGoals in Hpoints. congruence.
  - destruct (armed (handle config e p)) eqn:Harmed; [reflexivity|]. exfalso.
    destruct e as [total|]; cbn [handle] in *.
    + pose proof (updateScrollerAnimation_stall _ Htype Harmed) as Hnull.
      unfold fetchAndUpdate, render, renderGoals in Hpoints. congruence.
    + destruct (activeTimeout (animation (model p))) eqn:Htimeout.
      * pose proof (updateScrollerAnimation_stall _ Htype Harmed) as Hnull.
        unfold timeoutCallback, renderGoals in Hpoints. congruence.
      * rewrite (IH Htype Hpoints) in Harmed. discriminate.
Qed.

Lemma updateScrollerAnimation_goals (p : Page num) :
  model_goals (model (updateScrollerAnimation config p)) = model_goals (model p).
Proof.
  unfold updateScrollerAnimation.
  destruct (truthy _); [reflexivity|].
  destruct (totalPoints (model p)) as [pts|]; [|reflexivity].
  unfold switchAnimationType, startAnimation.
  destruct (type (animation (model p)));
    try destruct (option_Z_eqb _ _); try destruct (_ >? _); reflexivity.
Qed.

Lemma updateScrollerAnimation_names_a_goal (p : Page num) :
  (names_a_goal (type (animation (model p))) = true ->
   doneIndex (animation (model p)) <> None) ->
  let p' := updateScrollerAnimation config p in
  names_a_goal (type (animation (model p'))) = true ->
  doneIndex (animation (model p')) <> None.
Proof.
  intros Hp. cbv zeta. unfold updateScrollerAnimation.
  destruct (truthy _); [exact Hp|].
  destruct (totalPoints (model p)) as [pts|]; [|exact Hp].
  pose proof (calculateDoneIndex_in_range config pts) as Htarget.
  unfold switchAnimationType, startAnimation.
  destruct (type (animation (model p))) eqn:Htype;
    try (cbn; intros _; apply Hp; reflexivity);
    try (cbn; discriminate).
  - destruct (option_Z_eqb _ _); [rewrite Htype; cbn; discriminate|].
    destruct (Z.gtb_spec (doneIndex (animation (model p)) ?? -1)
                         (calculateDoneIndex config pts ?? -1)) as [Hgt|Hle];
      cbn; intros _; [|discriminate].
    destruct (doneIndex (animation (model p))); [discriminate|].
    destruct (calculateDoneIndex config pts);
      cbn [nullish doneIndex_in_range] in *; lia.
  - destruct (option_Z_eqb _ _); cbn; discriminate.
  - destruct (option_Z_eqb _ _); cbn; discriminate.
Qed.

(** What every reachable page satisfies: the goal list is the one
    loaded at start-up, the done index is in range, and a phase that
    names a goal carries a done index. *)
Lemma reachable_invariants (initialPoints : num) (p : Page num) :
  reachable config initialPoints p ->
  model_goals (model p) = loadGoalsFromConfig config /\
  doneIndex_in_range config (doneIndex (animation (model p))) /\
  (names_a_goal (type (animation (model p))) = true ->
   doneIndex (animation (model p)) <> None).
Proof.
  intros Hreach. induction Hreach as [|p e Hreach [IHgoals [IHrange IHnames]]].
  - unfold ui, render, renderGoals. split; [|split].
    + now rewrite updateScrollerAnimation_goals.
    + apply updateScrollerAnimation_in_range. apply calculateDoneIndex_in_range.
    + apply updateScrollerAnimation_names_a_goal. cbn. discriminate.
  - split; [|split].
    + destruct e as [total|]; cbn [handle].
      * unfold fetchAndUpdate, render, renderGoals.
        now rewrite updateScrollerAnimation_goals.
      * destruct (activeTimeout (animation (model p))); [|assumption].
        unfold timeoutCallback, renderGoals.
        now rewrite updateScrollerAnimation_goals.
    + now apply handle_in_range.
    + destruct e as [total|]; cbn [handle].
      * apply updateScrollerAnimation_names_a_goal. exact IHnames.
      * destruct (activeTimeout (animation (model p))); [|assumption].
        apply updateScrollerAnimation_names_a_goal. exact IHnames.
Qed.

(** X4.  In every reachable page, the phases [upwards:begin],
    [upwards:moving], [upwards:end], [downwards:begin] and
    [downwards:moving] carry the index of a goal of the catalog, never
    null: only [static] and [downwards:end] can show that no goal is
    reached. *)
Theorem reachable_moving_phase_names_a_goal (initialPoints : num) (p : Page num) :
  reachable config initialPoints p ->
  names_a_goal (type (animation (model p))) = true ->
  exists i, doneIndex (animation (model p)) = Some i
            /\ 0 <= i < Z.of_nat (List.length (goals config)).
Proof.
  intros Hreach Hnames.
  destruct (reachable_invariants initialPoints p Hreach) as [_ [Hrange Hsome]].
  specialize (Hsome Hnames).
  destruct (doneIndex (animation (model p))) as [i|]; [|contradiction].
  exists i. split; [reflexivity|exact Hrange].
Qed.

End ReachableProofs.

Lemma reachable_animation_keeps_timer_witness :
  let p := handle_all config5 [Poll (Some 250); TimerExpired] (ui config5 0) in
  reachable config5 0 p /\
  phase p = (upwards_moving, Some 0) /\
  armed p = true.
Proof.
  intros p.
  assert (Hreach : reachable config5 0 p)
    by (apply reachable_handle_all; apply reachable_ui).
  assert (Htype : type (animation (model p)) <> static) by discriminate.
  assert (Hpoints : totalPoints (model p) = Some 250) by reflexivity.
  split; [exact Hreach|]. split; [reflexivity|].
  exact (reachable_animation_keeps_timer config5 0 p 250 Hreach Htype Hpoints).
Defined.

Lemma reachable_moving_phase_names_a_goal_witness :
  let p := handle_all config5 [Poll (Some 250); TimerExpired; Poll None] (ui config5 0) in
  reachable config5 0 p /\
  names_a_goal (type (animation (model p))) = true /\
  exists i, doneIndex (animation (model p)) = Some i /\ 0 <= i < 5.
Proof.
  intros p.
  assert (Hreach : reachable config5 0 p)
    by (apply reachable_handle_all; apply reachable_ui).
  assert (Hnames : names_a_goal (type (animation (model p))) = true) by reflexivity.
  split; [exact Hreach|]. split; [exact Hnames|].
  exact (reachable_moving_phase_names_a_goal config5 0 p Hreach Hnames).
Defined.

(** ** The slot projector: what is shown where *)

Section ProjectorProofs.

Context {num : Type}.

(** Decide every comparison of the projector, dropping the cases that
    contradict each other. *)
Ltac decide_tests :=
  repeat (match goal with
          | |- context [Z.leb ?a ?b] => destruct (Z.leb_spec a b)
          | |- context [Z.ltb ?a ?b] => destruct (Z.ltb_spec a b)
          | |- context [Z.gtb ?a ?b] => destruct (Z.gtb_spec a b)
          | |- context [Z.geb ?a ?b] => destruct (Z.geb_spec a b)
          | |- context [Z.eqb ?a ?b] => destruct (Z.eqb_spec a b)
          end; try lia).

Ltac open_projector m :=
  destruct m as [total gs [ty d t]];
  unfold determineGoalInfo, goal_levels, goal_elementAnimation, goal_picker,
    goal_positionOffset, goal_position, goal_remaining;
  cbn [animation model_goals doneIndex type activeTimeout];
  generalize (Z.of_nat (List.length gs)); intros N.

Lemma Some_info_inj (a b : GoalInfo) : Some a = Some b -> a = b.
Proof. now intros [= ->]. Qed.

Ltac take_info :=
  let Hinfo := fresh "Hinfo" in
  intros Hinfo; try discriminate Hinfo;
  apply Some_info_inj in Hinfo; subst.

Lemma goal_picker_diff (m : UIModel num) (i j : Z) :
  goal_picker m j - goal_picker m i = j - i.
Proof. unfold goal_picker, goal_position. lia. Qed.

(** What a visible slot tells about its picker and its position. *)
Lemma determineGoalInfo_visible (m : UIModel num) (index : Z) (info : GoalInfo) :
  determineGoalInfo m index = Some info ->
  -1 <= goal_picker m index <= 2 /\
  (type (animation m) = static ->
   0 <= goal_picker m index /\ position info = goal_picker m index) /\
  (type (animation m) <> static ->
   position info = goal_picker m index + goal_positionOffset m).
Proof.
  unfold determineGoalInfo.
  destruct (goal_position m index <? -2); [discriminate|].
  destruct (type (animation m)); [destruct (doneIndex (animation m))|..];
    decide_tests; take_info; cbn [position];
    (split; [lia|]); (split; [intros Hs; try discriminate Hs; lia|]);
    intros Hs; try contradiction; reflexivity.
Qed.

(** When a goal is shown, in terms of its picker. *)
Lemma shown_iff_picker (m : UIModel num) (index : Z) :
  determineGoalInfo m index <> None <->
  -2 <= goal_position m index /\
  goal_picker m index <= 2 /\
  match type (animation m) with
  | static => 0 <= goal_picker m index
  | _ => -1 <= goal_picker m index /\ (goal_picker m index = -1 -> 2 < goal_remaining m)
  end.
Proof.
  unfold determineGoalInfo.
  destruct (Z.ltb_spec (goal_position m index) (-2)) as [Hlow|Hlow].
  - split; [congruence|]. intros [Hpos _]. lia.
  - destruct (type (animation m)); [destruct (doneIndex (animation m))|..];
      decide_tests;
      (split; [intros _; repeat split; lia|discriminate])
      || (split; [congruence|intros [_ [? ?]]; lia]).
Qed.

(** X5.  For a goal of the catalog (index 0 or more) and a done index
    that is null or not negative, a slot that is shown gets a display
    position between 0 and 3, and between 0 and 2 in the static phase:
    [placeGoal] never looks up a negative child index. *)
Theorem visible_position_bounds (m : UIModel num) (index : Z) (info : GoalInfo) :
  (forall d, doneIndex (animation m) = Some d -> 0 <= d) ->
  0 <= index ->
  determineGoalInfo m index = Some info ->
  0 <= position info <= 3 /\
  (type (animation m) = static -> position info <= 2).
Proof.
  intros Hd Hindex Hinfo.
  destruct (determineGoalInfo_visible m index info Hinfo) as [_ [Hstatic Hmoving]].
  assert (Hshown : determineGoalInfo m index <> None) by congruence.
  apply shown_iff_picker in Hshown.
  revert Hstatic Hmoving Hshown.
  unfold goal_picker, goal_positionOffset, goal_position, goal_remaining.
  generalize (Z.of_nat (List.length (model_goals m))). intros N.
  destruct (doneIndex (animation m)) as [d|];
    [specialize (Hd d eq_refl)|clear Hd]; cbn [nullish];
    destruct (type (animation m)); intros Hstatic Hmoving Hshown;
    try (destruct (Hstatic eq_refl) as [_ ->]);
    try (rewrite Hmoving by discriminate);
    clear Hstatic Hmoving; revert Hshown;
    decide_tests; cbn [andb]; intros Hshown;
    (split; [lia|try discriminate; intros _; lia]).
Qed.

(** X6.  Two goals that are shown at the same time keep their distance:
    their display positions differ by the difference of their indices, so
    no two goals share a position and the order of the catalog is the
    order on screen; and their indices are at most 3 apart, at most 2 in
    the static phase, so at most four goals are shown, three at rest. *)
Theorem visible_positions_follow_index (m : UIModel num) (i j : Z) (a b : GoalInfo) :
  determineGoalInfo m i = Some a ->
  determineGoalInfo m j = Some b ->
  position b - position a = j - i /\
  Z.abs (j - i) <= 3 /\
  (type (animation m) = static -> Z.abs (j - i) <= 2).
Proof.
  intros Ha Hb.
  destruct (determineGoalInfo_visible m i a Ha) as [Hpi [Hsi Hni]].
  destruct (determineGoalInfo_visible m j b Hb) as [Hpj [Hsj Hnj]].
  pose proof (goal_picker_diff m i j) as Hdiff.
  split; [|split].
  - destruct (type (animation m)) eqn:Hty;
      [destruct (Hsi eq_refl), (Hsj eq_refl); lia|..];
      rewrite Hni, Hnj by discriminate; lia.
  - lia.
  - intros Hs. destruct (Hsi Hs), (Hsj Hs). lia.
Qed.

Lemma goal_levels_cases (m : UIModel num) :
  goal_levels m = None
  \/ goal_levels m = Some [completed; completed; completed; completed]
  \/ goal_levels m = Some [completed; completed; completed; active]
  \/ goal_levels m = Some [completed; completed; active; upcoming]
  \/ goal_levels m = Some [active; active; upcoming; upcoming].
Proof.
  unfold goal_levels.
  destruct (goal_remaining m =? 1); [auto|].
  destruct (goal_remaining m =? 2); [auto|].
  destruct (goal_remaining m =? 3); [auto|].
  destruct (doneIndex (animation m)); [auto|].
  destruct (type (animation m)); auto 6.
Qed.

Lemma level_or_ordered (m : UIModel num) (x y : Z) (fx fy : GoalState) :
  0 <= x <= y -> y <= 3 ->
  GoalState_rank fx <= GoalState_rank fy ->
  GoalState_rank (level_or (goal_levels m) x fx)
  <= GoalState_rank (level_or (goal_levels m) y fy).
Proof.
  intros Hx Hy Hf.
  assert (Hxs : x = 0 \/ x = 1 \/ x = 2 \/ x = 3) by lia.
  assert (Hys : y = 0 \/ y = 1 \/ y = 2 \/ y = 3) by lia.
  destruct (goal_levels_cases m) as [-> | [-> | [-> | [-> | ->]]]];
    [exact Hf|..];
    destruct Hxs as [-> | [-> | [-> | ->]]];
    destruct Hys as [-> | [-> | [-> | ->]]]; cbv -[Z.le]; lia.
Qed.

(** The state of a visible slot: the level at [picker + 1], or the
    fallback of its [case], whose rank grows with the picker. *)
Lemma determineGoalInfo_state (m : UIModel num) (index : Z) (info : GoalInfo) :
  determineGoalInfo m index = Some info ->
  exists fallback,
    state info = level_or (goal_levels m) (goal_picker m index + 1) fallback /\
    GoalState_rank fallback =
      match type (animation m), doneIndex (animation m) with
      | static, None => Z.min 2 (goal_picker m index + 1)
      | _, _ => Z.max 0 (goal_picker m index)
      end.
Proof.
  unfold determineGoalInfo.
  destruct (goal_position m index <? -2); [discriminate|].
  destruct (type (animation m)); destruct (doneIndex (animation m));
    decide_tests; take_info; cbn [state];
    eexists; (split; [reflexivity|cbn [GoalState_rank]; lia]).
Qed.

(** X7.  Down the list the lifecycle states never go back: of two goals
    shown at the same time, the one with the smaller index is completed
    if the other is, and is not upcoming unless the other is. *)
Theorem visible_states_ordered (m : UIModel num) (i j : Z) (a b : GoalInfo) :
  i <= j ->
  determineGoalInfo m i = Some a ->
  determineGoalInfo m j = Some b ->
  GoalState_rank (state a) <= GoalState_rank (state b).
Proof.
  intros Hij Ha Hb.
  destruct (determineGoalInfo_visible m i a Ha) as [Hpi _].
  destruct (determineGoalInfo_visible m j b Hb) as [Hpj _].
  pose proof (goal_picker_diff m i j) as Hdiff.
  destruct (determineGoalInfo_state m i a Ha) as [fa [-> Hfa]].
  destruct (determineGoalInfo_state m j b Hb) as [fb [-> Hfb]].
  apply level_or_ordered; [lia|lia|].
  rewrite Hfa, Hfb.
  destruct (type (animation m)); destruct (doneIndex (animation m)); lia.
Qed.

Lemma level_or_Some_at (l : list GoalState) (i : Z) (fallback : GoalState) (k : nat) :
  i = Z.of_nat k -> level_or (Some l) i fallback = nth_error l k ?? fallback.
Proof.
  intros ->. unfold level_or, array_get.
  destruct (Z.ltb_spec (Z.of_nat k) 0); [lia|]. now rewrite Nat2Z.id.
Qed.

Ltac level_known :=
  repeat match goal with
         | |- context [level_or (Some ?l) ?i ?f] =>
             first [ rewrite (level_or_Some_at l i f 0%nat) by lia
                   | rewrite (level_or_Some_at l i f 1%nat) by lia
                   | rewrite (level_or_Some_at l i f 2%nat) by lia
                   | rewrite (level_or_Some_at l i f 3%nat) by lia ]
         end;
  reflexivity.

Ltac shown_with_state :=
  eexists; split; [reflexivity|cbn [state]; level_known].

(** X8.  Whatever the phase, with [doneIndex] the index [d] of a goal
    of the list: goal [d] is shown completed, the next goal, if there is
    one, is shown active, and the one after that, if there is one, is
    shown upcoming. *)
Theorem goals_around_doneIndex (m : UIModel num) (d : Z) :
  doneIndex (animation m) = Some d ->
  0 <= d < Z.of_nat (List.length (model_goals m)) ->
  (exists info, determineGoalInfo m d = Some info /\ state info = completed) /\
  (d + 1 < Z.of_nat (List.length (model_goals m)) ->
   exists info, determineGoalInfo m (d + 1) = Some info /\ state info = active) /\
  (d + 2 < Z.of_nat (List.length (model_goals m)) ->
   exists info, determineGoalInfo m (d + 2) = Some info /\ state info = upcoming).
Proof.
  destruct m as [total gs [ty d0 t]].
  cbn [animation model_goals doneIndex]. intros -> Hd.
  unfold determineGoalInfo, goal_levels, goal_elementAnimation, goal_picker,
    goal_positionOffset, goal_position, goal_remaining;
  cbn [animation model_goals doneIndex type activeTimeout nullish].
  revert Hd. generalize (Z.of_nat (List.length gs)). intros N Hd.
  split; [|split]; [|intros Hnext..];
    destruct ty; decide_tests; shown_with_state.
Qed.

(** X9.  With no goal reached, at least four goals in the list, and the
    phase [static] or [downwards:end] (the two that can carry null):
    goal 0 is shown active and goals 1 and 2 upcoming, at the positions
    0, 1 and 2. *)
Theorem first_goals_when_none_reached (m : UIModel num) :
  doneIndex (animation m) = None ->
  names_a_goal (type (animation m)) = false ->
  4 <= Z.of_nat (List.length (model_goals m)) ->
  (exists info, determineGoalInfo m 0 = Some info
                /\ state info = active /\ position info = 0) /\
  (exists info, determineGoalInfo m 1 = Some info
                /\ state info = upcoming /\ position info = 1) /\
  (exists info, determineGoalInfo m 2 = Some info
                /\ state info = upcoming /\ position info = 2).
Proof.
  destruct m as [total gs [ty d0 t]].
  cbn [animation model_goals doneIndex type]. intros -> Hty.
  unfold determineGoalInfo, goal_levels, goal_elementAnimation, goal_picker,
    goal_positionOffset, goal_position, goal_remaining;
  cbn [animation model_goals doneIndex type activeTimeout nullish].
  generalize (Z.of_nat (List.length gs)). intros N HN.
  destruct ty; try discriminate Hty;
    (split; [|split]); decide_tests;
    (eexists; split; [reflexivity|split; [cbn [state]; level_known|cbn; lia]]).
Qed.

(** X10.  With one, two or three goals in the list, the phases [static]
    and [downwards:end] show the same for [doneIndex] null as for
    [doneIndex] 0: such a short list cannot show that no goal is reached
    yet. *)
Theorem short_list_shows_null_as_zero
    (m : UIModel num) (ty : ScrollerAnimationType) (index : Z) :
  names_a_goal ty = false ->
  1 <= Z.of_nat (List.length (model_goals m)) <= 3 ->
  determineGoalInfo (with_phase m ty None) index
  = determineGoalInfo (with_phase m ty (Some 0)) index.
Proof.
  intros Hty.
  unfold determineGoalInfo, goal_levels, goal_elementAnimation, goal_picker,
    goal_positionOffset, goal_position, goal_remaining, with_phase;
  cbn [animation model_goals doneIndex type activeTimeout nullish truthy
       Z.eqb negb andb].
  generalize (Z.of_nat (List.length (model_goals m))). intros N HN.
  destruct ty; try discriminate Hty; decide_tests; level_known.
Qed.

(** X11.  A slot is told to scroll (tag [up] or [down]) only when more
    than two goals remain and the done index is not 0; the covered slot
    is never told to. *)
Theorem scroll_tags_need_room (m : UIModel num) (index : Z) (info : GoalInfo) :
  determineGoalInfo m index = Some info ->
  scrolls (info_animation info) = true ->
  2 < goal_remaining m /\
  doneIndex (animation m) <> Some 0 /\
  type (animation m) <> static /\
  goal_picker m index <> -1.
Proof.
  unfold determineGoalInfo, goal_elementAnimation.
  destruct (goal_position m index <? -2); [discriminate|].
  destruct (type (animation m));
    destruct (doneIndex (animation m)) as [d|];
    cbn [truthy option_Z_eqb andb orb negb];
    decide_tests; take_info; cbn [info_animation covered others scrolls];
    try discriminate;
    intros _; (split; [lia|]); (split; [congruence|]);
    (split; [discriminate|lia]).
Qed.

End ProjectorProofs.

Lemma visible_position_bounds_witness :
  let m := model (page_at config5 upwards_begin (Some 1) (Some 250)) in
  let info := {| state := upcoming; position := 3; info_animation := None |} in
  determineGoalInfo m 3 = Some info /\
  0 <= position info <= 3.
Proof.
  intros m info.
  assert (Hd : forall d, doneIndex (animation m) = Some d -> 0 <= d)
    by (intros d [= <-]; lia).
  assert (Hindex : 0 <= 3) by lia.
  assert (Hinfo : determineGoalInfo m 3 = Some info) by reflexivity.
  split; [exact Hinfo|].
  exact (proj1 (visible_position_bounds m 3 info Hd Hindex Hinfo)).
Defined.

Lemma visible_positions_follow_index_witness :
  let m := model (page_at config5 upwards_begin (Some 1) (Some 250)) in
  let a := {| state := completed; position := 0; info_animation := None |} in
  let b := {| state := upcoming; position := 3; info_animation := None |} in
  determineGoalInfo m 0 = Some a /\
  determineGoalInfo m 3 = Some b /\
  position b - position a = 3 - 0.
Proof.
  intros m a b.
  assert (Ha : determineGoalInfo m 0 = Some a) by reflexivity.
  assert (Hb : determineGoalInfo m 3 = Some b) by reflexivity.
  split; [exact Ha|]. split; [exact Hb|].
  exact (proj1 (visible_positions_follow_index m 0 3 a b Ha Hb)).
Defined.

Lemma visible_states_ordered_witness :
  let m := model (page_at config3 static (Some 1) (Some 250)) in
  let a := {| state := completed; position := 1; info_animation := Some clear |} in
  let b := {| state := active; position := 2; info_animation := Some clear |} in
  determineGoalInfo m 1 = Some a /\
  determineGoalInfo m 2 = Some b /\
  GoalState_rank (state a) <= GoalState_rank (state b).
Proof.
  intros m a b.
  assert (Hij : 1 <= 2) by lia.
  assert (Ha : determineGoalInfo m 1 = Some a) by reflexivity.
  assert (Hb : determineGoalInfo m 2 = Some b) by reflexivity.
  split; [exact Ha|]. split; [exact Hb|].
  exact (visible_states_ordered m 1 2 a b Hij Ha Hb).
Defined.

Lemma goals_around_doneIndex_witness :
  let m := model (page_at config5 static (Some 1) (Some 250)) in
  doneIndex (animation m) = Some 1 /\
  (exists info, determineGoalInfo m 1 = Some info /\ state info = completed) /\
  (exists info, determineGoalInfo m (1 + 1) = Some info /\ state info = active) /\
  (exists info, determineGoalInfo m (1 + 2) = Some info /\ state info = upcoming).
Proof.
  intros m.
  assert (Hd : doneIndex (animation m) = Some 1) by reflexivity.
  assert (Hrange : 0 <= 1 < Z.of_nat (List.length (model_goals m))) by (cbn; lia).
  destruct (goals_around_doneIndex m 1 Hd Hrange) as [Hdone [Hnext Hafter]].
  split; [exact Hd|]. split; [exact Hdone|].
  split; [apply Hnext; cbn; lia|apply Hafter; cbn; lia].
Defined.

Lemma first_goals_when_none_reached_witness :
  let m := model (page_at config5 static None (Some 50)) in
  doneIndex (animation m) = None /\
  exists info, determineGoalInfo m 0 = Some info
               /\ state info = active /\ position info = 0.
Proof.
  intros m.
  assert (Hd : doneIndex (animation m) = None) by reflexivity.
  assert (Hty : names_a_goal (type (animation m)) = false) by reflexivity.
  assert (HN : 4 <= Z.of_nat (List.length (model_goals m))) by (cbn; lia).
  split; [exact Hd|].
  exact (proj1 (first_goals_when_none_reached m Hd Hty HN)).
Defined.

Lemma short_list_shows_null_as_zero_witness :
  let m := model (page_at config3 static None (Some 50)) in
  determineGoalInfo (with_phase m static None) 0
  = Some {| state := completed; position := 0; info_animation := Some clear |} /\
  determineGoalInfo (with_phase m static None) 0
  = determineGoalInfo (with_phase m static (Some 0)) 0.
Proof.
  intros m.
  assert (Hty : names_a_goal static = false) by reflexivity.
  assert (HN : 1 <= Z.of_nat (List.length (model_goals m)) <= 3) by (cbn; lia).
  split; [reflexivity|].
  exact (short_list_shows_null_as_zero m static 0 Hty HN).
Defined.

Lemma scroll_tags_need_room_witness :
  let m := model (page_at config5 upwards_moving (Some 1) (Some 250)) in
  let info := {| state := active; position := 2; info_animation := Some up |} in
  determineGoalInfo m 2 = Some info /\
  2 < goal_remaining m /\
  doneIndex (animation m) <> Some 0.
Proof.
  intros m info.
  assert (Hinfo : determineGoalInfo m 2 = Some info) by reflexivity.
  assert (Hscrolls : scrolls (info_animation info) = true) by reflexivity.
  destruct (scroll_tags_need_room m 2 info Hinfo Hscrolls) as [Hroom [Hd _]].
  split; [exact Hinfo|]. split; [exact Hroom|exact Hd].
Defined.

(** ** Polling *)

Section PollingProofs.

Context {num : Type} `{JSNumber num} (config : Config num).

Variable number_truthy : num -> bool.

Lemma callFetchState_Some (fetch : string -> option (Response num)) (f : FetchState)
    (total : num) :
  callFetchState number_truthy fetch f = Some total ->
  exists response property,
    fetch (fetchUrl f) = Some response /\
    response_ok response = true /\
    response_json response = Some (JObject property) /\
    property "total"%string = Some (JNumber total).
Proof.
  unfold callFetchState.
  destruct (fetch (fetchUrl f)) as [response|]; [|discriminate].
  destruct (response_ok response) eqn:Hok; [|discriminate].
  destruct (response_json response) as [body|] eqn:Hbody; [|discriminate].
  destruct body as [| b | n | s | items | property];
    cbn [json_truthy typeof_object isArray negb orb]; try discriminate.
  - destruct b; discriminate.
  - destruct (number_truthy n); discriminate.
  - destruct (negb _); discriminate.
  - unfold has_property. cbn [get_property negb orb].
    destruct (property "total"%string) as [v|] eqn:Hv; [|discriminate].
    destruct v; cbn [negb]; try discriminate.
    intros [= ->]. exists response, property. auto.
Qed.

(** X12.  A poll changes the phase only if no timer is armed and the
    response is ok with a body that is an object, not an array, whose
    [total] is a number: a rejected fetch, a failed status, a body that
    does not parse, null, an array, or a missing or non-numeric [total]
    all leave the phase as it is. *)
Theorem poll_moves_phase_only_on_numeric_total
    (fetch : string -> option (Response num)) (f : FetchState) (p : Page num) :
  phase (fetchAndUpdate config (callFetchState number_truthy fetch f) p) <> phase p ->
  armed p = false /\
  exists response property total,
    fetch (fetchUrl f) = Some response /\
    response_ok response = true /\
    response_json response = Some (JObject property) /\
    property "total"%string = Some (JNumber total).
Proof.
  intros Hmoved. split.
  - destruct (armed p) eqn:Harmed; [|reflexivity]. exfalso. apply Hmoved.
    unfold fetchAndUpdate, render, renderGoals.
    rewrite updateScrollerAnimation_armed_same; reflexivity || exact Harmed.
  - destruct (callFetchState number_truthy fetch f) as [total|] eqn:Hfetch.
    + destruct (callFetchState_Some fetch f total Hfetch) as [response [property Hr]].
      exists response, property, total. exact Hr.
    + exfalso. apply Hmoved.
      unfold fetchAndUpdate, render, renderGoals.
      rewrite updateScrollerAnimation_null; reflexivity.
Qed.

End PollingProofs.

(** ** The page reload *)

Section AutoRefreshProofs.

Variable text : string.

Lemma pageAutoRefresh_from_same_text (st : RefreshState)
    (rs : list (option VersionResponse)) :
  previousText st = EmptyString \/ previousText st = text ->
  always_text text rs = true ->
  pageAutoRefresh_from st rs = false.
Proof.
  revert st. induction rs as [|r rs IH]; intros st Hst Hrs; [reflexivity|].
  cbn [always_text forallb] in Hrs. apply andb_true_iff in Hrs.
  destruct Hrs as [Hr Hrest]. fold (always_text text rs) in Hrest.
  cbn [pageAutoRefresh_from]. unfold pageAutoRefresh_turn.
  destruct r as [response|]; [|now apply IH].
  destruct (version_ok response); cbn [negb]; [|now apply IH].
  destruct (same_etag _ _); [now apply IH|].
  destruct (version_text response) as [newText|] eqn:Htext;
    [|now apply IH].
  apply String.eqb_eq in Hr.
  cbn [previousText].
  destruct (String.eqb_spec newText (previousText st)) as [Hsame|Hdiff];
    [now apply IH|].
  destruct (String.eqb_spec (previousText st) EmptyString) as [Hempty|Hfull].
  - apply IH; [right; exact Hr|assumption].
  - exfalso. destruct Hst as [Hst|Hst]; [contradiction|]. congruence.
Qed.

(** X13.  As long as every ok response for [version.json] that parses
    has the same text, the page is never reloaded, whatever the status codes and
    ETags are and however many fetches fail; in particular the first
    response never reloads. *)
Theorem pageAutoRefresh_no_reload_without_change
    (rs : list (option VersionResponse)) :
  always_text text rs = true -> pageAutoRefresh rs = false.
Proof.
  intros Hrs. apply pageAutoRefresh_from_same_text; [now left|assumption].
Qed.

End AutoRefreshProofs.

Lemma poll_moves_phase_only_on_numeric_total_witness :
  let number_truthy := fun n : Z => negb (n =? 0) in
  let body := JObject (fun key => if String.eqb key "total" then Some (JNumber 250)
                                  else None) in
  let fetch := fun _ : string =>
                 Some {| response_ok := true; response_json := Some body |} in
  let f := {| fetchUrl := "bucket" |} in
  let p := page_at config5 static None (Some 0) in
  phase (fetchAndUpdate config5 (callFetchState number_truthy fetch f) p)
  = (upwards_begin, Some 0) /\
  armed p = false.
Proof.
  intros number_truthy body fetch f p.
  assert (Hmoved : phase (fetchAndUpdate config5 (callFetchState number_truthy fetch f) p)
                   <> phase p) by discriminate.
  split; [reflexivity|].
  exact (proj1 (poll_moves_phase_only_on_numeric_total config5 number_truthy
                  fetch f p Hmoved)).
Defined.

Lemma pageAutoRefresh_no_reload_without_change_witness :
  let rs := [ Some {| version_ok := true; version_ETag := Some "a"%string;
                      version_text := Some "v1"%string |};
              None;
              Some {| version_ok := false; version_ETag := None;
                      version_text := Some "oops"%string |};
              Some {| version_ok := true; version_ETag := Some "b"%string;
                      version_text := Some "v1"%string |} ] in
  always_text "v1" rs = true /\ pageAutoRefresh rs = false.
Proof.
  intros rs.
  assert (Hrs : always_text "v1" rs = true) by reflexivity.
  split; [exact Hrs|].
  exact (pageAutoRefresh_no_reload_without_change "v1" rs Hrs).
Defined.

(** ** base64url *)

Section Base64Proofs.

Lemma list_ind3 {A : Type} (P : list A -> Prop) :
  P [] ->
  (forall a, P [a]) ->
  (forall a b, P [a; b]) ->
  (forall a b c rest, P rest -> P (a :: b :: c :: rest)) ->
  forall l, P l.
Proof.
  intros H0 H1 H2 H3.
  fix IH 1. intros [|a [|b [|c rest]]]; [exact H0|apply H1|apply H2|].
  apply H3. apply IH.
Qed.

Ltac n_arith := zify; Z.to_euclidean_division_equations; lia.

Lemma mod_3_skip (n : nat) : (S (S (S n)) mod 3 = n mod 3)%nat.
Proof.
  replace (S (S (S n))) with (n + 1 * 3)%nat by lia. apply Nat.Div0.mod_add.
Qed.

Lemma base64_padding_skip {a b c : ascii} (rest : list ascii) :
  base64_padding (a :: b :: c :: rest) = base64_padding rest.
Proof. unfold base64_padding. cbn [List.length]. now rewrite mod_3_skip. Qed.

(** Every sextet is a six-bit value. *)
Lemma sextets_lt (s : list ascii) : Forall (fun i => (i < 64)%N) (sextets s).
Proof.
  induction s as [|a|a b|a b c rest IH] using list_ind3; cbn [sextets app].
  - constructor.
  - pose proof (N_ascii_bounded a). repeat constructor; n_arith.
  - pose proof (N_ascii_bounded a). pose proof (N_ascii_bounded b).
    repeat constructor; n_arith.
  - pose proof (N_ascii_bounded a). pose proof (N_ascii_bounded b).
    pose proof (N_ascii_bounded c).
    repeat (constructor; [n_arith|]). exact IH.
Qed.

Lemma ascii_of_N_code (a : ascii) (n : N) : n = N_of_ascii a -> ascii_of_N n = a.
Proof. intros ->. apply ascii_N_embedding. Qed.

(** Regrouping the bits into bytes gives the string back. *)
Lemma bytes_of_sextets_sextets (s : list ascii) : bytes_of_sextets (sextets s) = s.
Proof.
  induction s as [|a|a b|a b c rest IH] using list_ind3;
    cbn [sextets app bytes_of_sextets].
  - reflexivity.
  - pose proof (N_ascii_bounded a).
    f_equal. apply ascii_of_N_code. n_arith.
  - pose proof (N_ascii_bounded a). pose proof (N_ascii_bounded b).
    f_equal; [|f_equal]; apply ascii_of_N_code; n_arith.
  - pose proof (N_ascii_bounded a). pose proof (N_ascii_bounded b).
    pose proof (N_ascii_bounded c).
    rewrite IH.
    f_equal; [|f_equal; [|f_equal]]; apply ascii_of_N_code; n_arith.
Qed.

Lemma sextets_length (s : list ascii) :
  (List.length (sextets s) + List.length (base64_padding s)
   = 4 * ((List.length s + 2) / 3))%nat.
Proof.
  induction s as [|a|a b|a b c rest IH] using list_ind3.
  - reflexivity.
  - reflexivity.
  - reflexivity.
  - rewrite base64_padding_skip. cbn [sextets app List.length].
    replace (S (S (S (List.length rest))) + 2)%nat
      with (List.length rest + 2 + 1 * 3)%nat by lia.
    rewrite Nat.div_add by lia. lia.
Qed.

Lemma btoa_units_length (s : list ascii) :
  List.length (btoa_units s) = (4 * ((List.length s + 2) / 3))%nat.
Proof.
  unfold btoa_units. rewrite length_app, length_map. apply sextets_length.
Qed.

Lemma sextets_length_mod (s : list ascii) :
  (List.length (sextets s) mod 4 =? 1)%nat = false.
Proof.
  induction s as [|a|a b|a b c rest IH] using list_ind3; try reflexivity.
  cbn [sextets app List.length].
  replace (S (S (S (S (List.length (sextets rest))))))
    with (List.length (sextets rest) + 1 * 4)%nat by lia.
  now rewrite Nat.Div0.mod_add.
Qed.

Lemma base64_table (i : N) :
  (i < 64)%N ->
  base64_value (base64_char i) = Some i /\
  ascii_whitespace (base64_char i) = false /\
  base64_char i <> "="%char /\ base64_char i <> "_"%char /\ base64_char i <> "-"%char.
Proof.
  intros Hi.
  assert (Hall : forallb base64_entry_ok (seq 0 64) = true) by (vm_compute; reflexivity).
  rewrite forallb_forall in Hall.
  specialize (Hall (N.to_nat i)).
  unfold base64_entry_ok in Hall. rewrite N2Nat.id in Hall.
  assert (Hin : In (N.to_nat i) (seq 0 64)) by (apply in_seq; lia).
  apply Hall in Hin.
  repeat (apply andb_true_iff in Hin; destruct Hin as [Hin ?]).
  destruct (base64_value (base64_char i)) as [j|]; [|discriminate].
  apply N.eqb_eq in Hin. subst j.
  repeat match goal with
         | Hc : negb _ = true |- _ => apply negb_true_iff in Hc
         end.
  split; [reflexivity|]. split; [assumption|].
  repeat split; apply Ascii.eqb_neq; assumption.
Qed.

Lemma all_some_values (l : list N) :
  Forall (fun i => (i < 64)%N) l ->
  all_some (map base64_value (map base64_char l)) = Some l.
Proof.
  induction 1 as [|i l Hi _ IH]; [reflexivity|].
  cbn [map all_some]. destruct (base64_table i Hi) as [-> _].
  now rewrite IH.
Qed.

Lemma sextets_data (s : list ascii) :
  Forall base64_data (map base64_char (sextets s)).
Proof.
  apply Forall_map. eapply Forall_impl; [|apply sextets_lt].
  intros i Hi. apply (base64_table i Hi).
Qed.

Lemma base64_padding_cases (s : list ascii) :
  base64_padding s = [] \/ base64_padding s = ["="%char]
  \/ base64_padding s = ["="%char; "="%char].
Proof.
  unfold base64_padding. destruct (List.length s mod 3)%nat as [|[|n]]; auto.
Qed.

Lemma keep_non_whitespace (body pad : list ascii) :
  Forall base64_data body ->
  pad = [] \/ pad = ["="%char] \/ pad = ["="%char; "="%char] ->
  filter (fun c => negb (ascii_whitespace c)) (body ++ pad) = body ++ pad.
Proof.
  intros Hbody Hpad. apply forallb_filter_id. apply forallb_forall.
  intros c Hc. apply in_app_or in Hc. destruct Hc as [Hc|Hc].
  - rewrite Forall_forall in Hbody. now rewrite (proj1 (Hbody c Hc)).
  - destruct Hpad as [-> | [-> | ->]]; cbn [In] in Hc;
      intuition (subst; reflexivity).
Qed.

Lemma last_is_data (body : list ascii) (c : ascii) (r : list ascii) :
  Forall base64_data body -> rev body = c :: r -> Ascii.eqb c "=" = false.
Proof.
  intros Hbody Hrev. apply Ascii.eqb_neq.
  rewrite Forall_forall in Hbody. apply (Hbody c).
  apply in_rev. rewrite Hrev. now left.
Qed.

Lemma strip_padding_btoa (body pad : list ascii) :
  Forall base64_data body ->
  pad = [] \/ pad = ["="%char] \/ pad = ["="%char; "="%char] ->
  strip_padding (body ++ pad) = body.
Proof.
  intros Hbody Hpad. unfold strip_padding. rewrite rev_app_distr.
  destruct Hpad as [-> | [-> | ->]]; cbn [rev app].
  - rewrite app_nil_r.
    destruct (rev body) as [|c1 [|c2 r]] eqn:Hrev;
      [reflexivity|now rewrite (last_is_data _ _ _ Hbody Hrev)..].
  - destruct (rev body) as [|c2 r] eqn:Hrev.
    + apply (f_equal (@rev ascii)) in Hrev. rewrite rev_involutive in Hrev.
      now subst body.
    + cbn [Ascii.eqb Bool.eqb andb]. rewrite (last_is_data _ _ _ Hbody Hrev).
      rewrite <- (rev_involutive body), Hrev. reflexivity.
  - cbn [Ascii.eqb Bool.eqb andb]. apply rev_involutive.
Qed.

(** [atob] inverts [btoa] on every binary string. *)
Lemma atob_units_btoa_units (s : list ascii) : atob_units (btoa_units s) = Some s.
Proof.
  pose proof (sextets_data s) as Hdata.
  pose proof (base64_padding_cases s) as Hpad.
  assert (Hkept : filter (fun c => negb (ascii_whitespace c)) (btoa_units s)
                  = btoa_units s)
    by (apply keep_non_whitespace; assumption).
  assert (Hlength : (List.length (btoa_units s) mod 4 =? 0)%nat = true)
    by (rewrite btoa_units_length, Nat.mul_comm, Nat.Div0.mod_mul; reflexivity).
  assert (Hstripped : strip_padding (btoa_units s) = map base64_char (sextets s))
    by (apply strip_padding_btoa; assumption).
  unfold atob_units. rewrite Hkept, Hlength, Hstripped.
  rewrite length_map, sextets_length_mod.
  rewrite (all_some_values _ (sextets_lt s)). cbn [option_map].
  now rewrite bytes_of_sextets_sextets.
Qed.

Lemma atob_btoa (s : string) : atob (btoa s) = Some s.
Proof.
  unfold atob, btoa. rewrite list_ascii_of_string_of_list_ascii.
  rewrite atob_units_btoa_units. cbn [option_map].
  now rewrite string_of_list_ascii_of_string.
Qed.

Lemma replace_char_units (from to : ascii) (l : list ascii) :
  crypto.replace_char from to (string_of_list_ascii l)
  = string_of_list_ascii (map (fun c => if Ascii.eqb c from then to else c) l).
Proof. unfold crypto.replace_char. now rewrite list_ascii_of_string_of_list_ascii. Qed.

(** The two replacements of [crypto.base64UrlToArrayBuffer] undo the two of
    [crypto.arrayBufferToBase64Url] on what [btoa] produces. *)
Lemma url_alphabet_back (l : list ascii) :
  Forall (fun c => c <> "_"%char /\ c <> "-"%char) l ->
  crypto.replace_char "-" "+" (crypto.replace_char "_" "/"
    (crypto.replace_char "+" "-" (crypto.replace_char "/" "_" (string_of_list_ascii l))))
  = string_of_list_ascii l.
Proof.
  intros Hl. rewrite !replace_char_units, !map_map. f_equal.
  rewrite <- (map_id l) at 2. apply map_ext_Forall.
  eapply Forall_impl; [|exact Hl]. intros c [Hunderscore Hminus]. cbv beta.
  destruct (Ascii.eqb_spec c "/") as [->|Hslash]; [reflexivity|].
  destruct (Ascii.eqb_spec c "+") as [->|Hplus]; [reflexivity|].
  destruct (Ascii.eqb_spec c "_"); [contradiction|].
  destruct (Ascii.eqb_spec c "-"); [contradiction|]. reflexivity.
Qed.

Lemma btoa_units_no_url_characters (s : list ascii) :
  Forall (fun c => c <> "_"%char /\ c <> "-"%char) (btoa_units s).
Proof.
  unfold btoa_units. apply Forall_app. split.
  - eapply Forall_impl; [|apply sextets_data]. intros c Hc. split; apply Hc.
  - destruct (base64_padding_cases s) as [-> | [-> | ->]];
      repeat constructor; discriminate.
Qed.

Lemma base64url_back (buffer : list Byte.byte) :
  crypto.base64UrlToArrayBuffer (crypto.arrayBufferToBase64Url buffer) = Some buffer.
Proof.
  unfold crypto.base64UrlToArrayBuffer, crypto.arrayBufferToBase64Url.
  unfold btoa at 1. rewrite url_alphabet_back by apply btoa_units_no_url_characters.
  fold (btoa (string_of_list_byte buffer)).
  rewrite atob_btoa. cbn [option_map].
  now rewrite list_byte_of_string_of_list_byte.
Qed.

Lemma string_of_list_ascii_length (l : list ascii) :
  String.length (string_of_list_ascii l) = List.length l.
Proof. induction l as [|c l IH]; [reflexivity|]. cbn. now rewrite IH. Qed.

Lemma list_ascii_of_string_length (s : string) :
  List.length (list_ascii_of_string s) = String.length s.
Proof. induction s as [|c s IH]; [reflexivity|]. cbn. now rewrite IH. Qed.

Lemma arrayBufferToBase64Url_units (buffer : list Byte.byte) :
  crypto.arrayBufferToBase64Url buffer
  = string_of_list_ascii
      (map (fun c => if Ascii.eqb c "+" then "-"%char else c)
         (map (fun c => if Ascii.eqb c "/" then "_"%char else c)
            (btoa_units (map ascii_of_byte buffer)))).
Proof.
  unfold crypto.arrayBufferToBase64Url, btoa, string_of_list_byte.
  now rewrite !replace_char_units, list_ascii_of_string_of_list_ascii.
Qed.

Lemma arrayBufferToBase64Url_length (buffer : list Byte.byte) :
  String.length (crypto.arrayBufferToBase64Url buffer)
  = (4 * ((List.length buffer + 2) / 3))%nat.
Proof.
  rewrite arrayBufferToBase64Url_units.
  rewrite string_of_list_ascii_length, !length_map, btoa_units_length.
  now rewrite length_map.
Qed.



End Base64Proofs.

(** ** Keys and encrypted texts *)

Section CryptoProofs.

Context {CryptoKey : Type}.
Variable subtle_importKey : list Byte.byte -> option CryptoKey.
Variable subtle_encrypt : list Byte.byte -> CryptoKey -> list Byte.byte -> list Byte.byte.
Variable subtle_decrypt :
  list Byte.byte -> CryptoKey -> list Byte.byte -> option (list Byte.byte).
Variable text_encode : string -> list Byte.byte.
Variable text_decode : list Byte.byte -> string.

(** X16.  Given the text [arrayBufferToBase64Url] makes of raw key
    bytes as the [key] parameter, [tryLoadKeyFromSearch] hands exactly
    these bytes to [crypto.subtle.importKey] when there are 31, 32 or 33
    of them, and gives up without importing otherwise: of the key sizes
    of AES, only 256 bits pass the length check. *)
Theorem tryLoadKeyFromSearch_exported_key (raw : list Byte.byte) :
  tryLoadKeyFromSearch CryptoKey (crypto.importKey subtle_importKey)
    (Some (crypto.arrayBufferToBase64Url raw))
  = if (31 <=? List.length raw)%nat && (List.length raw <=? 33)%nat
    then subtle_importKey raw
    else None.
Proof.
  cbn [tryLoadKeyFromSearch]. rewrite arrayBufferToBase64Url_length.
  unfold crypto.importKey. rewrite base64url_back.
  pose proof (Nat.div_mod_eq (List.length raw + 2) 3) as Hdiv.
  pose proof (Nat.mod_upper_bound (List.length raw + 2) 3) as Hmod.
  destruct (Nat.leb_spec 31 (List.length raw));
    destruct (Nat.leb_spec (List.length raw) 33); cbn [andb];
    destruct (Nat.eqb_spec (4 * ((List.length raw + 2) / 3)) 0);
    destruct (Nat.ltb_spec (4 * ((List.length raw + 2) / 3)) 43);
    destruct (Nat.ltb_spec 44 (4 * ((List.length raw + 2) / 3)));
    cbn [orb]; try reflexivity; exfalso; lia.
Qed.


End CryptoProofs.

Lemma tryLoadKeyFromSearch_exported_key_witness :
  let raw := repeat Byte.x2a 32 in
  tryLoadKeyFromSearch (list Byte.byte) (crypto.importKey Some)
    (Some (crypto.arrayBufferToBase64Url raw))
  = Some raw.
Proof.
  intros raw.
  exact (tryLoadKeyFromSearch_exported_key Some raw).
Defined.


(** ** Rendering *)

Section ChildLists.

(** The list operations on the children of the container. *)

Lemma removeChild_absent (node : nat) (l : list nat) :
  ~ In node l -> removeChild node l = l.
Proof.
  intros Hnot. unfold removeChild. apply forallb_filter_id. apply forallb_forall.
  intros c Hc. apply negb_true_iff, Nat.eqb_neq. congruence.
Qed.

Lemma removeChild_app (node : nat) (l1 l2 : list nat) :
  removeChild node (l1 ++ l2) = removeChild node l1 ++ removeChild node l2.
Proof. apply filter_app. Qed.

Lemma removeChild_In (node c : nat) (l : list nat) :
  In c (removeChild node l) <-> In c l /\ c <> node.
Proof.
  unfold removeChild. rewrite filter_In, negb_true_iff, Nat.eqb_neq. tauto.
Qed.

Lemma removeChild_NoDup (node : nat) (l : list nat) :
  NoDup l -> NoDup (removeChild node l).
Proof. apply NoDup_filter. Qed.

Lemma insert_before_app (node reference : nat) (l1 l2 : list nat) :
  ~ In reference l1 ->
  insert_before node reference (l1 ++ reference :: l2)
  = l1 ++ node :: reference :: l2.
Proof.
  induction l1 as [|c l1 IH]; intros Hnot; cbn [app insert_before].
  - now rewrite Nat.eqb_refl.
  - destruct (Nat.eqb_spec c reference) as [->|Hne].
    + exfalso. apply Hnot. now left.
    + rewrite IH; [reflexivity|]. intros Hin. apply Hnot. now right.
Qed.

End ChildLists.

(** ** Rendering: which goals are shown, and where *)

Section ShownGoals.

Context {num : Type}.

Ltac decide_tests :=
  repeat (match goal with
          | |- context [Z.leb ?a ?b] => destruct (Z.leb_spec a b)
          | |- context [Z.ltb ?a ?b] => destruct (Z.ltb_spec a b)
          | |- context [Z.gtb ?a ?b] => destruct (Z.gtb_spec a b)
          | |- context [Z.geb ?a ?b] => destruct (Z.geb_spec a b)
          | |- context [Z.eqb ?a ?b] => destruct (Z.eqb_spec a b)
          end; try lia).

(** With at least three goals, a slot stands at position 0 or more, and
    one that is not at position 0 has the goal before it shown as well. *)
Lemma shown_before (m : UIModel num) (index : Z) (info : GoalInfo) :
  3 <= Z.of_nat (List.length (model_goals m)) ->
  (forall d, doneIndex (animation m) = Some d ->
             0 <= d < Z.of_nat (List.length (model_goals m))) ->
  0 <= index ->
  determineGoalInfo m index = Some info ->
  0 <= position info /\
  (0 < position info ->
   0 < index /\ determineGoalInfo m (index - 1) <> None).
Proof.
  intros HN Hd Hindex Hinfo.
  destruct (determineGoalInfo_visible m index info Hinfo) as [_ [Hstatic Hmoving]].
  assert (Hshown : determineGoalInfo m index <> None) by congruence.
  apply shown_iff_picker in Hshown.
  rewrite shown_iff_picker.
  revert Hstatic Hmoving Hshown.
  unfold goal_picker, goal_positionOffset, goal_position, goal_remaining.
  revert HN Hd. generalize (Z.of_nat (List.length (model_goals m))). intros N HN Hd.
  destruct (doneIndex (animation m)) as [d|];
    [specialize (Hd d eq_refl)|clear Hd]; cbn [nullish];
    destruct (type (animation m)); intros Hstatic Hmoving Hshown;
    try (destruct (Hstatic eq_refl) as [_ ->]);
    try (rewrite Hmoving by discriminate);
    clear Hstatic Hmoving; revert Hshown;
    decide_tests; cbn [andb]; intros Hshown; lia.
Qed.

End ShownGoals.

Section ShortLists.

Context {num : Type}.

Ltac decide_tests :=
  repeat (match goal with
          | |- context [Z.leb ?a ?b] => destruct (Z.leb_spec a b)
          | |- context [Z.ltb ?a ?b] => destruct (Z.ltb_spec a b)
          | |- context [Z.gtb ?a ?b] => destruct (Z.gtb_spec a b)
          | |- context [Z.geb ?a ?b] => destruct (Z.geb_spec a b)
          | |- context [Z.eqb ?a ?b] => destruct (Z.eqb_spec a b)
          end; try lia).

(** With one or two goals, every goal is shown, at the end of the three
    positions. *)
Lemma short_list_positions (m : UIModel num) (index : Z) :
  Z.of_nat (List.length (model_goals m)) <= 2 ->
  (forall d, doneIndex (animation m) = Some d ->
             0 <= d < Z.of_nat (List.length (model_goals m))) ->
  0 <= index < Z.of_nat (List.length (model_goals m)) ->
  exists info,
    determineGoalInfo m index = Some info /\
    position info = index + 3 - Z.of_nat (List.length (model_goals m)).
Proof.
  destruct m as [total gs [ty d t]].
  unfold determineGoalInfo, goal_levels, goal_elementAnimation, goal_picker,
    goal_positionOffset, goal_position, goal_remaining;
  cbn [animation model_goals doneIndex type activeTimeout].
  generalize (Z.of_nat (List.length gs)); intros N HN Hd Hindex.
  destruct d as [d|]; [specialize (Hd d eq_refl)|clear Hd];
    cbn [nullish truthy andb orb option_Z_eqb];
    destruct ty; decide_tests;
    (eexists; split; [reflexivity|cbn [position andb]; lia]).
Qed.

End ShortLists.

Section ShownRank.

Context {num : Type}.

Lemma filter_none {A : Type} (f : A -> bool) (l : list A) :
  (forall x, In x l -> f x = false) -> filter f l = [].
Proof.
  induction l as [|x l IH]; intros Hl; [reflexivity|].
  cbn [filter]. rewrite (Hl x) by now left.
  apply IH. intros y Hy. apply Hl. now right.
Qed.

Section Render.

Variable m : UIModel num.

Hypothesis three_goals : 3 <= Z.of_nat (List.length (model_goals m)).
Hypothesis doneIndex_ok :
  forall d, doneIndex (animation m) = Some d ->
            0 <= d < Z.of_nat (List.length (model_goals m)).

Lemma position_step (i j : Z) (a b : GoalInfo) :
  determineGoalInfo m i = Some a ->
  determineGoalInfo m j = Some b ->
  position b - position a = j - i.
Proof.
  intros Ha Hb.
  destruct (determineGoalInfo_visible m i a Ha) as [_ [Hsi Hni]].
  destruct (determineGoalInfo_visible m j b Hb) as [_ [Hsj Hnj]].
  pose proof (goal_picker_diff m i j) as Hdiff.
  destruct (type (animation m)) eqn:Hty;
    [destruct (Hsi eq_refl), (Hsj eq_refl); lia|..];
    rewrite Hni, Hnj by discriminate; lia.
Qed.

Lemma shown_Some (i : nat) :
  shown m i = true <-> exists info, determineGoalInfo m (Z.of_nat i) = Some info.
Proof.
  unfold shown. destruct (determineGoalInfo m (Z.of_nat i)) as [info|].
  - split; [intros _; now exists info|reflexivity].
  - split; [discriminate|intros [info Hinfo]; discriminate].
Qed.

(** The display position of a goal is the number of goals shown before
    it. *)
Lemma position_is_rank (i : nat) (info : GoalInfo) :
  determineGoalInfo m (Z.of_nat i) = Some info ->
  position info = Z.of_nat (List.length (filter (shown m) (seq 0 i))).
Proof.
  revert info. induction i as [|k IH]; intros info Hinfo.
  - destruct (shown_before m _ info three_goals doneIndex_ok (Nat2Z.is_nonneg 0) Hinfo)
      as [Hnonneg Hbefore].
    cbn [seq filter List.length].
    destruct (Z.eq_dec (position info) 0) as [->|Hne]; [reflexivity|].
    destruct Hbefore as [Hindex _]; lia.
  - destruct (shown_before m _ info three_goals doneIndex_ok
                (Nat2Z.is_nonneg (S k)) Hinfo) as [Hnonneg Hbefore].
    rewrite seq_S, filter_app, length_app. cbn [Nat.add filter].
    destruct (Z.eq_dec (position info) 0) as [Hzero|Hne].
    + (* nothing before it is shown *)
      assert (Hnone : forall j, (j <= k)%nat -> shown m j = false).
      { intros j Hj. destruct (shown m j) eqn:Hshown; [|reflexivity].
        apply shown_Some in Hshown. destruct Hshown as [b Hb].
        pose proof (position_step _ _ b info Hb Hinfo) as Hstep.
        destruct (shown_before m _ b three_goals doneIndex_ok
                    (Nat2Z.is_nonneg j) Hb) as [Hb0 _].
        lia. }
      rewrite (Hnone k (Nat.le_refl k)). cbn [List.length].
      rewrite filter_none; [cbn; lia|].
      intros j Hj. apply in_seq in Hj. apply Hnone. lia.
    + destruct Hbefore as [_ Hprev]; [lia|].
      replace (Z.of_nat (S k) - 1) with (Z.of_nat k) in Hprev by lia.
      destruct (determineGoalInfo m (Z.of_nat k)) as [b|] eqn:Hb; [|contradiction].
      pose proof (position_step _ _ b info Hb Hinfo) as Hstep.
      specialize (IH b eq_refl).
      unfold shown at 2. rewrite Hb. cbn [List.length]. lia.
Qed.

End Render.

End ShownRank.

Section RenderLoop.

Context {num : Type}.

Variable m : UIModel num.

Lemma placeGoal_children (index : nat) (position : Z) (dom : Dom num) :
  container_children (placeGoal index position dom)
  = placed_children index position (container_children dom).
Proof.
  unfold placeGoal, placed_children.
  destruct (array_get (container_children dom) position) as [current|];
    [destruct (current =? index)%nat|]; reflexivity.
Qed.

Lemma placeGoal_elements (index : nat) (position : Z) (dom : Dom num) (j : nat) :
  j <> index ->
  goal_element (placeGoal index position dom) j = goal_element dom j.
Proof.
  intros Hj. unfold placeGoal.
  destruct (array_get (container_children dom) position) as [current|].
  - destruct (current =? index)%nat; [reflexivity|].
    cbn [goal_element]. unfold update_element.
    destruct (Nat.eqb_spec j index); congruence.
  - cbn [goal_element]. unfold update_element.
    destruct (Nat.eqb_spec j index); congruence.
Qed.

Lemma update_element_kept (index : nat) (f : GoalElement num -> GoalElement num)
    (elements : nat -> option (GoalElement num)) (j : nat) :
  elements j <> None -> update_element index f elements j <> None.
Proof.
  intros Hj. unfold update_element. destruct (j =? index)%nat; [|exact Hj].
  destruct (elements j); [discriminate|contradiction].
Qed.

Lemma placeGoal_element_kept (index : nat) (position : Z) (dom : Dom num) (j : nat) :
  goal_element dom j <> None ->
  goal_element (placeGoal index position dom) j <> None.
Proof.
  intros Hj.
  assert (Hupdated : update_element index set_data_active_transition
                       (goal_element dom) j <> None)
    by now apply update_element_kept.
  unfold placeGoal.
  destruct (array_get (container_children dom) position) as [current|].
  - destruct (current =? index)%nat; [exact Hj|exact Hupdated].
  - exact Hupdated.
Qed.

(** Rendering one goal changes no element but its own. *)
Lemma renderGoal_other (index : nat) (dom : Dom num) (j : nat) :
  j <> index ->
  goal_element (renderGoal m index dom) j = goal_element dom j.
Proof.
  intros Hj. unfold renderGoal.
  destruct (nth_error (model_goals m) index) as [goal|]; [|reflexivity].
  destruct (determineGoalInfo m (Z.of_nat index)) as [info|].
  - cbn [goal_element]. unfold update_element at 1.
    destruct (Nat.eqb_spec j index); [contradiction|].
    rewrite placeGoal_elements by assumption.
    cbn [goal_element]. unfold update_element.
    destruct (Nat.eqb_spec j index); [contradiction|].
    destruct (goal_element dom index); [reflexivity|].
    destruct (Nat.eqb_spec j index); [contradiction|reflexivity].
  - destruct (goal_element dom index); [|reflexivity].
    destruct (existsb _ _); reflexivity.
Qed.

Lemma renderGoal_element_kept (index : nat) (dom : Dom num) (j : nat) :
  goal_element dom j <> None ->
  goal_element (renderGoal m index dom) j <> None.
Proof.
  intros Hj. unfold renderGoal.
  destruct (nth_error (model_goals m) index) as [goal|]; [|exact Hj].
  destruct (determineGoalInfo m (Z.of_nat index)) as [info|].
  - cbn [goal_element]. apply update_element_kept, placeGoal_element_kept.
    cbn [goal_element]. apply update_element_kept.
    destruct (goal_element dom index); [exact Hj|].
    destruct (j =? index)%nat; [discriminate|exact Hj].
  - destruct (goal_element dom index); [|exact Hj].
    destruct (existsb _ _); exact Hj.
Qed.

(** What rendering one goal of the list does to the children. *)
Lemma renderGoal_children (index : nat) (dom : Dom num) :
  (index < List.length (model_goals m))%nat ->
  container_children (renderGoal m index dom)
  = match determineGoalInfo m (Z.of_nat index) with
    | Some info => placed_children index (position info) (container_children dom)
    | None =>
        match goal_element dom index with
        | Some _ => removeChild index (container_children dom)
        | None => container_children dom
        end
    end.
Proof.
  intros Hindex. unfold renderGoal.
  destruct (nth_error (model_goals m) index) as [goal|] eqn:Hgoal;
    [|apply nth_error_None in Hgoal; lia].
  destruct (determineGoalInfo m (Z.of_nat index)) as [info|].
  - cbn [container_children]. now rewrite placeGoal_children.
  - destruct (goal_element dom index); [|reflexivity].
    destruct (existsb _ _) eqn:Hin; [reflexivity|].
    symmetry. apply removeChild_absent. intros Hc.
    assert (Hex : existsb (fun c => (c =? index)%nat) (container_children dom) = true)
      by (apply existsb_exists; exists index; split; [assumption|apply Nat.eqb_refl]).
    congruence.
Qed.

End RenderLoop.

Section RenderSorted.

Context {num : Type}.

Variable m : UIModel num.

Hypothesis three_goals : 3 <= Z.of_nat (List.length (model_goals m)).
Hypothesis doneIndex_ok :
  forall d, doneIndex (animation m) = Some d ->
            0 <= d < Z.of_nat (List.length (model_goals m)).

Lemma shown_below (k c : nat) : In c (filter (shown m) (seq 0 k)) -> (c < k)%nat.
Proof. intros Hc. apply filter_In in Hc. destruct Hc as [Hc _]. apply in_seq in Hc. lia. Qed.

Lemma array_get_after {A : Type} (l1 l2 : list A) :
  array_get (l1 ++ l2) (Z.of_nat (List.length l1)) = nth_error l2 0.
Proof.
  unfold array_get. destruct (Z.ltb_spec (Z.of_nat (List.length l1)) 0); [lia|].
  rewrite Nat2Z.id, nth_error_app2 by lia. now rewrite Nat.sub_diag.
Qed.

(** One turn of the loop: the goals shown so far stand in order at the
    front, the elements of later goals behind them. *)
Lemma renderGoal_turn (k : nat) (dom : Dom num) (later : list nat) :
  (k < List.length (model_goals m))%nat ->
  container_children dom = filter (shown m) (seq 0 k) ++ later ->
  NoDup later ->
  (forall c, In c later -> (k <= c)%nat /\ goal_element dom c <> None) ->
  container_children (renderGoal m k dom)
  = filter (shown m) (seq 0 (S k)) ++ removeChild k later.
Proof.
  intros Hk Hchildren Hnodup Hlater.
  set (front := filter (shown m) (seq 0 k)) in *.
  assert (Hfront : ~ In k front)
    by (intros Hin; apply shown_below in Hin; lia).
  rewrite renderGoal_children by assumption.
  rewrite seq_S, filter_app. cbn [Nat.add filter]. fold front.
  unfold shown at 1.
  destruct (determineGoalInfo m (Z.of_nat k)) as [info|] eqn:Hinfo.
  - (* shown: placed right behind the front *)
    rewrite (position_is_rank m three_goals doneIndex_ok k info Hinfo). fold front.
    unfold placed_children. rewrite Hchildren, array_get_after.
    destruct later as [|current later']; cbn [nth_error].
    + unfold appendChild. rewrite app_nil_r, removeChild_absent by assumption.
      now rewrite app_nil_r.
    + destruct (Nat.eqb_spec current k) as [->|Hne].
      * inversion Hnodup as [|? ? Hnotin _]; subst.
        unfold removeChild at 1. cbn [filter]. rewrite Nat.eqb_refl. cbn [negb].
        fold (removeChild k later'). rewrite removeChild_absent by assumption.
        now rewrite <- app_assoc.
      * unfold insertBefore. rewrite removeChild_app.
        rewrite (removeChild_absent k front) by assumption.
        unfold removeChild at 1 2. cbn [filter].
        rewrite (proj2 (Nat.eqb_neq current k) Hne). cbn [negb].
        fold (removeChild k later').
        rewrite insert_before_app; [now rewrite <- app_assoc|].
        intros Hin. apply shown_below in Hin.
        destruct (Hlater current (or_introl eq_refl)) as [Hle _]. lia.
  - (* not shown: taken out if it is there *)
    rewrite app_nil_r, Hchildren.
    destruct (goal_element dom k) eqn:Helement.
    + rewrite removeChild_app. now rewrite removeChild_absent by assumption.
    + rewrite (removeChild_absent k later); [reflexivity|].
      intros Hin. destruct (Hlater k Hin) as [_ Hsome]. contradiction.
Qed.

Lemma renderGoals_loop_S (k : nat) (dom : Dom num) :
  fold_left (fun d index => renderGoal m index d) (seq 0 (S k)) dom
  = renderGoal m k (fold_left (fun d index => renderGoal m index d) (seq 0 k) dom).
Proof. rewrite seq_S, fold_left_app. reflexivity. Qed.

Lemma renderGoals_loop_elements_kept (k : nat) (dom : Dom num) (c : nat) :
  goal_element dom c <> None ->
  goal_element (fold_left (fun d index => renderGoal m index d) (seq 0 k) dom) c
  <> None.
Proof.
  intros Hc. induction k as [|k IH]; [exact Hc|].
  rewrite renderGoals_loop_S. now apply renderGoal_element_kept.
Qed.

Lemma renderGoals_loop_invariant (k : nat) (dom : Dom num) :
  (k <= List.length (model_goals m))%nat ->
  container_ok m dom ->
  exists later,
    container_children (fold_left (fun d index => renderGoal m index d) (seq 0 k) dom)
    = filter (shown m) (seq 0 k) ++ later /\
    NoDup later /\
    forall c, In c later ->
      (k <= c < List.length (model_goals m))%nat /\ goal_element dom c <> None.
Proof.
  intros Hk [Hnodup Hok]. induction k as [|k IH].
  - exists (container_children dom). cbn [seq filter fold_left app].
    split; [reflexivity|]. split; [assumption|].
    intros c Hc. destruct (Hok c Hc). split; [lia|assumption].
  - destruct IH as [later [Hchildren [Hlater_nodup Hlater]]]; [lia|].
    exists (removeChild k later). rewrite renderGoals_loop_S.
    split; [|split].
    + apply renderGoal_turn; [lia|assumption|assumption|].
      intros c Hc. destruct (Hlater c Hc) as [Hrange Hsome].
      split; [lia|]. now apply renderGoals_loop_elements_kept.
    + now apply removeChild_NoDup.
    + intros c Hc. apply removeChild_In in Hc. destruct Hc as [Hc Hne].
      destruct (Hlater c Hc) as [Hrange Hsome]. split; [lia|assumption].
Qed.

End RenderSorted.


Section RenderShort.

Context {num : Type}.

Lemma insert_before_In (node reference c : nat) (l : list nat) :
  In c (insert_before node reference l) <-> c = node \/ In c l.
Proof.
  induction l as [|x l IH]; cbn [insert_before In]; [intuition congruence|].
  destruct (x =? reference)%nat; cbn [In]; [intuition congruence|].
  rewrite IH. intuition congruence.
Qed.

Lemma insert_before_NoDup (node reference : nat) (l : list nat) :
  ~ In node l -> NoDup l -> NoDup (insert_before node reference l).
Proof.
  induction l as [|x l IH]; intros Hnot Hnodup; cbn [insert_before].
  - repeat constructor. intros [].
  - inversion Hnodup as [|? ? Hx Hl]; subst.
    destruct (x =? reference)%nat.
    + constructor; assumption.
    + constructor.
      * rewrite insert_before_In. intros [->|Hin]; [apply Hnot; now left|contradiction].
      * apply IH; [|assumption]. intros Hin. apply Hnot. now right.
Qed.

Lemma array_get_In {A : Type} (l : list A) (p : Z) (x : A) :
  array_get l p = Some x -> In x l.
Proof.
  unfold array_get. destruct (p <? 0); [discriminate|]. apply nth_error_In.
Qed.

Lemma placed_children_In (index : nat) (position : Z) (l : list nat) (c : nat) :
  In c (placed_children index position l) <-> c = index \/ In c l.
Proof.
  unfold placed_children.
  destruct (array_get l position) as [current|] eqn:Hcurrent.
  - destruct (Nat.eqb_spec current index) as [->|Hne].
    + apply array_get_In in Hcurrent. intuition congruence.
    + unfold insertBefore. rewrite insert_before_In, removeChild_In.
      destruct (Nat.eq_dec c index); intuition congruence.
  - unfold appendChild. rewrite in_app_iff, removeChild_In. cbn [In].
    destruct (Nat.eq_dec c index); intuition congruence.
Qed.

Lemma placed_children_NoDup (index : nat) (position : Z) (l : list nat) :
  NoDup l -> NoDup (placed_children index position l).
Proof.
  intros Hl. unfold placed_children.
  destruct (array_get l position) as [current|].
  - destruct (current =? index)%nat; [assumption|].
    apply insert_before_NoDup; [|now apply removeChild_NoDup].
    rewrite removeChild_In. tauto.
  - unfold appendChild. apply NoDup_app; [now apply removeChild_NoDup| |].
    + repeat constructor. intros [].
    + intros c Hc [<-|[]]. apply removeChild_In in Hc. tauto.
Qed.

Lemma few_children (l : list nat) (n : nat) :
  NoDup l -> (forall c, In c l -> (c < n)%nat) -> (List.length l <= n)%nat.
Proof.
  intros Hnodup Hl.
  assert (Hincl : incl l (seq 0%nat n))
    by (intros c Hc; apply in_seq; specialize (Hl c Hc); lia).
  pose proof (NoDup_incl_length Hnodup Hincl) as Hlength.
  now rewrite length_seq in Hlength.
Qed.

Lemma array_get_beyond {A : Type} (l : list A) (n : nat) :
  (List.length l <= n)%nat -> array_get l (Z.of_nat n) = None.
Proof.
  intros Hl. unfold array_get. destruct (Z.ltb_spec (Z.of_nat n) 0); [reflexivity|].
  rewrite Nat2Z.id. now apply nth_error_None.
Qed.

Lemma only_child (l : list nat) (a : nat) :
  NoDup l -> In a l -> (forall c, In c l -> c = a) -> l = [a].
Proof.
  intros Hnodup Ha Hall. destruct l as [|x l]; [contradiction|].
  assert (x = a) by (apply Hall; now left). subst x.
  destruct l as [|y l]; [reflexivity|].
  assert (y = a) by (apply Hall; right; now left). subst y.
  inversion Hnodup as [|? ? Hnot _]. exfalso. apply Hnot. now left.
Qed.

Lemma no_child (l : list nat) : (forall c, In c l -> False) -> l = [].
Proof. destruct l as [|x l]; [reflexivity|]. intros Hl. destruct (Hl x). now left. Qed.

Variable m : UIModel num.

Hypothesis doneIndex_ok :
  forall d, doneIndex (animation m) = Some d ->
            0 <= d < Z.of_nat (List.length (model_goals m)).

(** With one or two goals a goal is appended behind what is there. *)
Lemma renderGoal_short (index : nat) (dom : Dom num) :
  (List.length (model_goals m) <= 2)%nat ->
  (index < List.length (model_goals m))%nat ->
  NoDup (container_children dom) ->
  (forall c, In c (container_children dom) -> (c < List.length (model_goals m))%nat) ->
  shown m index = true /\
  container_children (renderGoal m index dom)
  = placed_children index
      (Z.of_nat (index + 3 - List.length (model_goals m)))
      (container_children dom).
Proof.
  intros Hshort Hindex Hnodup Hchildren.
  destruct (short_list_positions m (Z.of_nat index)) as [info [Hinfo Hposition]];
    [lia|exact doneIndex_ok|lia|].
  unfold shown. rewrite renderGoal_children, Hinfo by assumption.
  split; [reflexivity|]. rewrite Hposition. f_equal. lia.
Qed.

Lemma renderGoals_loop_short (dom : Dom num) :
  (List.length (model_goals m) <= 2)%nat ->
  container_ok m dom ->
  container_children (renderGoals_loop m dom)
  = filter (shown m) (seq 0 (List.length (model_goals m))).
Proof.
  intros Hshort [Hnodup Hok].
  assert (Hbelow : forall c, In c (container_children dom) ->
                             (c < List.length (model_goals m))%nat)
    by (intros c Hc; apply (Hok c Hc)).
  unfold renderGoals_loop.
  assert (Hcases : List.length (model_goals m) = 0%nat
                   \/ List.length (model_goals m) = 1%nat
                   \/ List.length (model_goals m) = 2%nat) by lia.
  destruct Hcases as [Hlength | [Hlength | Hlength]]; rewrite Hlength;
    cbn [seq fold_left filter].
  - apply no_child. intros c Hc. specialize (Hbelow c Hc). lia.
  - destruct (renderGoal_short 0 dom) as [-> ->]; [lia|lia|assumption|assumption|].
    rewrite Hlength. change (Z.of_nat (0 + 3 - 1)) with (Z.of_nat 2).
    unfold placed_children.
    rewrite array_get_beyond
      by (pose proof (few_children _ _ Hnodup Hbelow); lia).
    unfold appendChild. change [0%nat] with ([] ++ [0%nat]) at 2.
    f_equal. apply no_child.
    intros c Hc. apply removeChild_In in Hc. destruct Hc as [Hc Hne].
    specialize (Hbelow c Hc). lia.
  - destruct (renderGoal_short 0 dom) as [-> Hfirst];
      [lia|lia|assumption|assumption|].
    set (dom1 := renderGoal m 0 dom) in *.
    assert (Hnodup1 : NoDup (container_children dom1))
      by (rewrite Hfirst; now apply placed_children_NoDup).
    assert (Hin1 : forall c, In c (container_children dom1) <->
                             c = 0%nat \/ In c (container_children dom))
      by (intros c; rewrite Hfirst; apply placed_children_In).
    assert (Hbelow1 : forall c, In c (container_children dom1) ->
                                (c < List.length (model_goals m))%nat).
    { intros c Hc. apply Hin1 in Hc. destruct Hc as [->|Hc]; [lia|].
      now apply Hbelow. }
    destruct (renderGoal_short 1 dom1) as [-> ->];
      [lia|lia|assumption|assumption|].
    rewrite Hlength. change (Z.of_nat (1 + 3 - 2)) with (Z.of_nat 2).
    unfold placed_children.
    rewrite array_get_beyond
      by (pose proof (few_children _ _ Hnodup1 Hbelow1); lia).
    unfold appendChild. change [0%nat; 1%nat] with ([0%nat] ++ [1%nat]).
    f_equal. apply only_child.
    + now apply removeChild_NoDup.
    + apply removeChild_In. split; [|discriminate]. apply Hin1. now left.
    + intros c Hc. apply removeChild_In in Hc. destruct Hc as [Hc Hne].
      specialize (Hbelow1 c Hc). lia.
Qed.

End RenderShort.
Section RenderTheorems.

Context {num : Type}.

Lemma renderGoals_loop_sorted (m : UIModel num) (dom : Dom num) :
  (forall d, doneIndex (animation m) = Some d ->
             0 <= d < Z.of_nat (List.length (model_goals m))) ->
  container_ok m dom ->
  container_children (renderGoals_loop m dom)
  = filter (shown m) (seq 0 (List.length (model_goals m))).
Proof.
  intros Hd Hok.
  destruct (Nat.le_gt_cases (List.length (model_goals m)) 2) as [Hshort|Hlong].
  - now apply renderGoals_loop_short.
  - assert (Hthree : 3 <= Z.of_nat (List.length (model_goals m))) by lia.
    destruct (renderGoals_loop_invariant m Hthree Hd
                (List.length (model_goals m)) dom (Nat.le_refl _) Hok)
      as [later [Hchildren [_ Hlater]]].
    unfold renderGoals_loop. rewrite Hchildren.
    destruct later as [|c later]; [apply app_nil_r|].
    destruct (Hlater c (or_introl eq_refl)) as [Hrange _]. lia.
Qed.

(** X18.  With a done index that is null or the index of a goal, and a
    container that holds only elements of goals, each once: after the
    loop of [renderGoals] the children of the container are exactly the
    goals that [determineGoalInfo] shows, in the order of the list,
    whatever was in the container before and in whatever order. *)
Theorem renderGoals_loop_children (m : UIModel num) (dom : Dom num) :
  (forall d, doneIndex (animation m) = Some d ->
             0 <= d < Z.of_nat (List.length (model_goals m))) ->
  container_ok m dom ->
  container_children (renderGoals_loop m dom)
  = filter (shown m) (seq 0 (List.length (model_goals m))).
Proof. exact (renderGoals_loop_sorted m dom). Qed.

(** X19.  After the loop of [renderGoals], the element of every goal
    that is shown exists and carries the state and the transition tag
    that [determineGoalInfo] gives for it. *)
Theorem renderGoals_loop_attributes (m : UIModel num) (dom : Dom num)
    (index : nat) (info : GoalInfo) :
  (index < List.length (model_goals m))%nat ->
  determineGoalInfo m (Z.of_nat index) = Some info ->
  exists element,
    goal_element (renderGoals_loop m dom) index = Some element /\
    data_state element = Some (state info) /\
    data_move element = info_animation info.
Proof.
  intros Hindex Hinfo. unfold renderGoals_loop.
  replace (List.length (model_goals m))
    with (S index + (List.length (model_goals m) - S index))%nat by lia.
  rewrite seq_app, fold_left_app, renderGoals_loop_S.
  set (before := fold_left _ (seq 0 index) dom).
  assert (Hlater : forall l d,
             (forall j, In j l -> j <> index) ->
             goal_element (fold_left (fun d index => renderGoal m index d) l d) index
             = goal_element d index).
  { induction l as [|j l IH]; intros d Hl; [reflexivity|].
    cbn [fold_left]. rewrite IH by (intros j' Hj'; apply Hl; now right).
    apply renderGoal_other. intros E. apply (Hl j); [now left|congruence]. }
  rewrite Hlater by (intros j Hj; apply in_seq in Hj; lia).
  unfold renderGoal.
  destruct (nth_error (model_goals m) index) as [goal|] eqn:Hgoal;
    [|apply nth_error_None in Hgoal; lia].
  rewrite Hinfo. cbn [goal_element]. unfold update_element at 1.
  rewrite Nat.eqb_refl.
  match goal with
  | |- context [goal_element (placeGoal ?i ?p ?d) index] =>
      assert (Hplaced : exists e, goal_element (placeGoal i p d) index = Some e
                                  /\ data_state e = Some (state info))
  end.
  { unfold placeGoal. cbn [container_children goal_element data_scroll_state].
    assert (Hset : exists e,
               update_element index (set_data_state (state info))
                 match goal_element before index with
                 | Some _ => goal_element before
                 | None =>
                     fun i =>
                       if (i =? index)%nat
                       then Some {| data_points := points (config goal);
                                    data_state := None; data_move := None;
                                    data_active_transition := false |}
                       else goal_element before i
                 end index = Some e /\ data_state e = Some (state info)).
    { unfold update_element. rewrite Nat.eqb_refl.
      destruct (goal_element before index) as [e|] eqn:He.
      - rewrite He. eexists. split; reflexivity.
      - rewrite Nat.eqb_refl. eexists. split; reflexivity. }
    destruct Hset as [e [He Hstate]].
    destruct (array_get (container_children before) (position info)) as [current|];
      [destruct (current =? index)%nat|]; cbn [goal_element].
    - exists e. split; assumption.
    - unfold update_element at 1. rewrite Nat.eqb_refl, He.
      eexists. split; [reflexivity|exact Hstate].
    - unfold update_element at 1. rewrite Nat.eqb_refl, He.
      eexists. split; [reflexivity|exact Hstate]. }
  destruct Hplaced as [e [-> Hstate]].
  eexists. split; [reflexivity|]. split; [exact Hstate|reflexivity].
Qed.

Lemma loadGoalsFromConfig_length `{JSNumber num} (config : Config num) :
  List.length (loadGoalsFromConfig config) = List.length (goals config).
Proof. unfold loadGoalsFromConfig. apply length_map. Qed.

(** X20.  On every page reachable from start-up, with a container that
    holds only elements of goals, each once: [renderGoals] leaves the
    phase tag of the new model in [data-scroll-state], and as children
    of the container exactly the goals the new model shows, in the order
    of the list. *)
Theorem renderGoals_shows_the_model `{JSNumber num} (config : Config num)
    (initialPoints : num) (p : Page num) (dom : Dom num) :
  reachable config initialPoints p ->
  container_ok (model p) dom ->
  let (p', dom') := renderGoals_dom config p dom in
  p' = updateScrollerAnimation config p /\
  data_scroll_state dom' = Some (type (animation (model p'))) /\
  container_children dom'
  = filter (shown (model p')) (seq 0 (List.length (goals config))).
Proof.
  intros Hreach Hok. unfold renderGoals_dom.
  destruct (reachable_invariants config initialPoints p Hreach)
    as [Hgoals [Hrange _]].
  pose proof (updateScrollerAnimation_goals config p) as Hsame.
  pose proof (updateScrollerAnimation_in_range config p Hrange) as Hrange'.
  set (p' := updateScrollerAnimation config p) in *.
  assert (Hlength : List.length (model_goals (model p')) = List.length (goals config))
    by (rewrite Hsame, Hgoals; apply loadGoalsFromConfig_length).
  split; [reflexivity|]. split.
  - unfold renderGoals_loop.
    generalize (seq 0 (List.length (model_goals (model p')))).
    intros l.
    assert (Hkeep : forall d : Dom num,
               data_scroll_state
                 (fold_left (fun d index => renderGoal (model p') index d) l d)
               = data_scroll_state d).
    { induction l as [|i l IH]; intros d; [reflexivity|].
      cbn [fold_left]. rewrite IH. unfold renderGoal.
      destruct (nth_error _ i); [|reflexivity].
      destruct (determineGoalInfo _ _).
      - cbn [data_scroll_state]. unfold placeGoal.
        destruct (array_get _ _); [destruct (_ =? _)%nat|]; reflexivity.
      - destruct (goal_element d i); [destruct (existsb _ _)|]; reflexivity. }
    now rewrite Hkeep.
  - rewrite <- Hlength. apply renderGoals_loop_sorted.
    + intros d Hd. unfold doneIndex_in_range in Hrange'. rewrite Hd in Hrange'.
      rewrite Hlength. exact Hrange'.
    + destruct Hok as [Hnodup Hchildren]. split; [exact Hnodup|].
      intros c Hc. rewrite Hsame. now apply Hchildren.
Qed.

End RenderTheorems.

(** A container that holds the elements of goals 4, 0 and 2, in this
    order; every goal of a list of five has its element. *)
Lemma example_container_ok (p : Page Z) :
  List.length (model_goals (model p)) = 5%nat ->
  container_ok (model p) example_dom.
Proof.
  intros Hlength. split.
  - repeat constructor; cbn; intuition discriminate.
  - intros c Hc. rewrite Hlength. cbn in Hc.
    destruct Hc as [<- | [<- | [<- | []]]]; (split; [lia|discriminate]).
Qed.

Lemma renderGoals_loop_children_witness :
  let m := model (page_at config5 static (Some 1) (Some 250)) in
  container_children (renderGoals_loop m example_dom) = [1; 2; 3]%nat.
Proof.
  intros m.
  assert (Hd : forall d, doneIndex (animation m) = Some d ->
                         0 <= d < Z.of_nat (List.length (model_goals m)))
    by (intros d [= <-]; cbn; lia).
  assert (Hok : container_ok m example_dom)
    by (apply (example_container_ok (page_at config5 static (Some 1) (Some 250)));
        reflexivity).
  exact (renderGoals_loop_children m example_dom Hd Hok).
Defined.

Lemma renderGoals_loop_attributes_witness :
  let m := model (page_at config5 upwards_moving (Some 1) (Some 250)) in
  let info := {| state := active; position := 2; info_animation := Some up |} in
  determineGoalInfo m 2 = Some info /\
  exists element,
    goal_element (renderGoals_loop m example_dom) 2 = Some element /\
    data_state element = Some active /\
    data_move element = Some up.
Proof.
  intros m info.
  assert (Hindex : (2 < List.length (model_goals m))%nat) by (cbn; lia).
  assert (Hinfo : determineGoalInfo m (Z.of_nat 2) = Some info) by reflexivity.
  split; [exact Hinfo|].
  exact (renderGoals_loop_attributes m example_dom 2 info Hindex Hinfo).
Defined.

Lemma renderGoals_shows_the_model_witness :
  let p := handle_all config5 [Poll (Some 250); TimerExpired] (ui config5 0) in
  reachable config5 0 p /\
  container_children (snd (renderGoals_dom config5 p example_dom)) = [0; 1; 2]%nat /\
  data_scroll_state (snd (renderGoals_dom config5 p example_dom)) = Some upwards_moving.
Proof.
  intros p.
  assert (Hreach : reachable config5 0 p)
    by (apply reachable_handle_all; apply reachable_ui).
  assert (Hok : container_ok (model p) example_dom)
    by (apply example_container_ok; reflexivity).
  pose proof (renderGoals_shows_the_model config5 0 p example_dom Hreach Hok) as Hshown.
  destruct (renderGoals_dom config5 p example_dom) as [p' dom'] eqn:Hrender.
  destruct Hshown as [Hp' [Hstate Hchildren]].
  split; [exact Hreach|]. cbn [snd].
  assert (Hphase : p' = p)
    by (rewrite Hp'; reflexivity).
  split.
  - rewrite Hchildren, Hphase. reflexivity.
  - rewrite Hstate, Hphase. reflexivity.
Defined.
